(** * CPUDeviceManager: load / evict / run state machine of the CPU device

    A shallow embedding of [lib/Backends/CPU/CPUDeviceManager.h] and of the
    implementation file that follows it ([createCPUDeviceManager], the memory
    accessors, [addNetworkImpl], [evictNetworkImpl], [runFunctionImpl] and
    [getRemotePeerToPeerAddress]).

    Conventions of the embedding:
    - [uint64_t] values are [Z] and every unsigned 64-bit operation writes its
      wrap-around out with [u64];
    - pointers are [Z] addresses, [nullptr] is [0];
    - the two [std::map]s of the device are [gmap string _]; the
      [FunctionMapTy] argument of a load is the list of its entries in the
      order a range-for visits them (ascending key order);
    - a callback is not called, it is recorded: every operation returns the
      list of the invocations it made, in order;
    - undefined behaviour (dereferencing a null [unique_ptr] or an end
      iterator) is an explicit outcome, never a made-up value;
    - telemetry ([Stats()], [exportMemoryCounters]) and trace scopes write to
      collaborators outside this unit and are left out. *)

From stdpp Require Import gmap strings list fin_maps.
From Stdlib Require Import ZArith Lia.

Local Open Scope Z_scope.

(** ** Machine integers *)

Definition u64_modulus : Z := 2 ^ 64.

(** Value of an unsigned 64-bit result. *)
Definition u64 (z : Z) : Z := z mod u64_modulus.

(** [reinterpret_cast<int64_t>] of a 64-bit pattern. *)
Definition to_int64 (z : Z) : Z :=
  let w := u64 z in if w <? 2 ^ 63 then w else w - u64_modulus.

Definition is_u64 (z : Z) : Prop := 0 <= z < u64_modulus.

(** The character written for [\n]. *)
Definition newline : string := String (Ascii.ascii_of_nat 10) EmptyString.

(** ** Errors *)

Inductive ErrorCode :=
  | UNKNOWN
  | RUNTIME_ERROR
  | RUNTIME_OUT_OF_DEVICE_MEMORY
  | RUNTIME_NET_NOT_FOUND.

(** [llvm::Error]: success, or a [GlowErr] with a code and a message.
    [MAKE_ERR(msg)] without a code is [MAKE_ERR UNKNOWN msg]. *)
Inductive Error :=
  | success
  | MAKE_ERR (code : ErrorCode) (msg : string).

Definition isSuccess (e : Error) : bool :=
  match e with success => true | MAKE_ERR _ _ => false end.

Definition errorCode (e : Error) : option ErrorCode :=
  match e with success => None | MAKE_ERR c _ => Some c end.

(** The failures the device reports, under the names the specification uses. *)
Definition DuplicateFunction (name : string) : Error :=
  MAKE_ERR UNKNOWN
    ("Failed to add network: already have a function called " +:+ name).

Definition WrongBackend (name : string) : Error :=
  MAKE_ERR UNKNOWN
    ("Failed to add network: function " +:+ name +:+ " is not a CPUFunction").

Definition OutOfDeviceMemory : Error :=
  MAKE_ERR RUNTIME_OUT_OF_DEVICE_MEMORY
    "Failed to add network: not enough memory".

(** [std::string::c_str()] read through [%s]: the characters before the first
    NUL. *)
Fixpoint c_str (s : string) : string :=
  match s with
  | EmptyString => EmptyString
  | String c rest =>
      if Ascii.eqb c Ascii.zero then EmptyString else String c (c_str rest)
  end.

Definition EvictNotFound (name : string) : Error :=
  MAKE_ERR RUNTIME_NET_NOT_FOUND
    ("Could not find function with name " +:+ c_str name +:+ " to evict").

Definition RunNotFound (name : string) : Error :=
  MAKE_ERR RUNTIME_NET_NOT_FOUND ("Function " +:+ name +:+ " not found").

Definition RemoteAddressUnavailable : Error :=
  MAKE_ERR RUNTIME_ERROR "Failed to find remote address.".

(** [FunctionNotFound] of the specification is the code [RUNTIME_NET_NOT_FOUND]. *)
Definition isFunctionNotFound (e : Error) : Prop :=
  errorCode e = Some RUNTIME_NET_NOT_FOUND.

(** ** Collaborators: bundles, contexts, compiled functions *)

Record RuntimeSymbolInfo := { offset : Z }.

(** [constants] is the [uint8_t *] returned by [getConstants()]. *)
Record RuntimeBundle := {
  constants : Z;
  activationsSize : Z;
  mutableWeightSize : Z;
  symbolTable : gmap string RuntimeSymbolInfo;
}.

Record Placeholder := { getName : string }.

Definition PlaceholderBindings := list Placeholder.

(** Modelled from the spec: [PlaceholderBindings::getPlaceholderByName] is
    declared outside this unit; the bindings are a name lookup, and the result
    is null ([None]) when no placeholder has the name. *)
Definition getPlaceholderByName (bindings : PlaceholderBindings) (name : string)
  : option Placeholder :=
  List.find (fun ph => String.eqb (getName ph) name) bindings.

(** The pair of region pointers handed to a run. *)
Record CPUDeviceBindings := {
  bindingsActivations : Z;
  bindingsWeights : Z;
}.

Record ExecutionContext := {
  placeholderBindings : PlaceholderBindings;
  deviceBindings : option CPUDeviceBindings;
}.

Definition setDeviceBindings (context : ExecutionContext) (b : CPUDeviceBindings)
  : ExecutionContext :=
  {| placeholderBindings := placeholderBindings context;
     deviceBindings := Some b |}.

(** A [CompiledFunction]: [execute] may update the context it is given and
    returns the execution outcome. *)
Record CompiledFunction := {
  getCompileBackendName : string;
  getRuntimeBundle : RuntimeBundle;
  execute : ExecutionContext -> Error * ExecutionContext;
}.

Definition setRuntimeBundle (f : CompiledFunction) (b : RuntimeBundle)
  : CompiledFunction :=
  {| getCompileBackendName := getCompileBackendName f;
     getRuntimeBundle := b;
     execute := execute f |}.

(** ** CPUBuffer *)

Definition RunIdentifierTy := Z.

Record SingleRequestBuffer := {
  reqActivationsBuffer_ : Z;
  reqWeightsBuffer_ : Z;
}.

Definition kMaxRequestsSupported : Z := 1.

(** [activationsBuffer_] and [weightsBuffer_] are the regions [~CPUBuffer]
    frees; [reqBuffers_] holds the free request buffers and
    [busyRequestBuffers_] the ones handed out, keyed by run identifier. *)
Record CPUBuffer := {
  activationsBuffer_ : Z;
  weightsBuffer_ : Z;
  reqBuffers_ : list SingleRequestBuffer;
  busyRequestBuffers_ : gmap Z SingleRequestBuffer;
  activationsSize_ : Z;
  weightsSize_ : Z;
}.

(** Modelled from the spec: the body of the [CPUBuffer] constructor is not in
    this unit.  [addNetworkImpl] passes it the two regions it allocated and
    their sizes; the pool starts with its [kMaxRequestsSupported] = 1 slot
    free and no slot busy. *)
Definition CPUBuffer_new (activationsBuffer activationsSize
                          weightsBuffer weightsSize : Z) : CPUBuffer :=
  {| activationsBuffer_ := activationsBuffer;
     weightsBuffer_ := weightsBuffer;
     reqBuffers_ := [ {| reqActivationsBuffer_ := activationsBuffer;
                         reqWeightsBuffer_ := weightsBuffer |} ];
     busyRequestBuffers_ := ∅;
     activationsSize_ := activationsSize;
     weightsSize_ := weightsSize |}.

(** Modelled from the spec: [getActivationsBuffer] and [getWeightsBuffer] are
    called by the device but not defined in this unit; they are the accessors
    of the two region pointers and leave the pool as it is. *)
Definition getActivationsBuffer (b : CPUBuffer) : Z := activationsBuffer_ b.

Definition getWeightsBuffer (b : CPUBuffer) : Z := weightsBuffer_ b.

Definition getActivationsSize (b : CPUBuffer) : Z := activationsSize_ b.

Definition getWeightsSize (b : CPUBuffer) : Z := weightsSize_ b.

Definition getNumAvailableBuffers (b : CPUBuffer) : nat := length (reqBuffers_ b).

(** The free/busy partition of a pool. *)
Definition poolPartition (b : CPUBuffer)
  : list SingleRequestBuffer * gmap Z SingleRequestBuffer :=
  (reqBuffers_ b, busyRequestBuffers_ b).

(** The [CPUBuffer] member functions the class offers to the device. *)
Inductive BufferCall :=
  | CallGetActivationsBuffer
  | CallGetWeightsBuffer
  | CallGetUnownedRequestBuffer (id : RunIdentifierTy)
  | CallFreeRequestBuffer (id : RunIdentifierTy).

(** ** The platform the device is built for *)

(** What the unit takes from its build and its host: the allocator
    ([alignedAlloc] returns [0] when it fails), [TensorAlignment], the module
    type with [RuntimeBundle::collectConstants], whether [assert] is compiled
    out ([NDEBUG]), and the flat per-function cost [functionCost_] of the
    base class. *)
Class Platform := {
  Heap : Type;
  alignedAlloc : Heap -> Z -> Z -> Z * Heap;
  alignedFree : Heap -> Z -> Heap;
  TensorAlignment : Z;
  Module_ : Type;
  collectConstants : Heap -> RuntimeBundle -> Module_ -> RuntimeBundle * Heap;
  NDEBUG : bool;
  functionCost_ : Z;
}.

(** ** The device *)

Section Device.
Context `{P : Platform}.

(** [~CPUBuffer]. *)
Definition CPUBuffer_destroy (heap : Heap) (b : CPUBuffer) : Heap :=
  alignedFree (alignedFree heap (activationsBuffer_ b)) (weightsBuffer_ b).

(** The members of [CPUDeviceManager] and the two memory counters it
    inherits; [functions_] owns nothing, [buffers_] owns its [CPUBuffer]s. *)
Record CPUDeviceManager := {
  functions_ : gmap string CompiledFunction;
  buffers_ : gmap string CPUBuffer;
  maxMemoryBytes_ : Z;
  usedMemoryBytes_ : Z;
}.

(** A load's [FunctionMapTy], as the entries a range-for visits in order. *)
Definition FunctionMapTy := list (string * CompiledFunction).

Definition getMaximumMemory (d : CPUDeviceManager) : Z := maxMemoryBytes_ d.

Definition getAvailableMemory (d : CPUDeviceManager) : Z :=
  u64 (maxMemoryBytes_ d - usedMemoryBytes_ d).

Definition isMemoryAvailable (d : CPUDeviceManager) (estimate : Z) : bool :=
  maxMemoryBytes_ d >=? u64 (usedMemoryBytes_ d + estimate).

(** *** addNetworkImpl *)

(** The first loop: the error passed to [readyCB] before the early [return],
    or [None] when the loop runs to its end. *)
Fixpoint checkFunctions (registered : gmap string CompiledFunction)
    (functions : FunctionMapTy) : option Error :=
  match functions with
  | [] => None
  | (name, func) :: rest =>
      if bool_decide (is_Some (registered !! name))
      then Some (DuplicateFunction name)
      else if negb (String.eqb (getCompileBackendName func) "CPU")
      then Some (WrongBackend name)
      else checkFunctions registered rest
  end.

(** State threaded through the second loop: the device, the host heap and
    the [readyCB] invocations made so far. *)
Record LoadState := {
  ls_device : CPUDeviceManager;
  ls_heap : Heap;
  ls_ready : list (Module_ * Error);
}.

(** [std::map::emplace]: the entry is added only when the key is new. *)
Definition emplace {V : Type} (k : string) (v : V) (m : gmap string V)
  : gmap string V :=
  match m !! k with
  | Some _ => m
  | None => <[k := v]> m
  end.

(** One iteration of the second loop. *)
Definition addFunction (module : Module_) (entry : string * CompiledFunction)
    (st : LoadState) : LoadState :=
  let '(name, func) := entry in
  let d := ls_device st in
  (* collectConstants, when the bundle has no constants yet *)
  let '(bundle, heap1) :=
    if constants (getRuntimeBundle func) =? 0
    then collectConstants (ls_heap st) (getRuntimeBundle func) module
    else (getRuntimeBundle func, ls_heap st) in
  let func1 := setRuntimeBundle func bundle in
  let functions1 := emplace name func1 (functions_ d) in
  let used1 := u64 (usedMemoryBytes_ d + functionCost_) in
  let '(activationsBuffer, heap2) :=
    alignedAlloc heap1 (activationsSize bundle) TensorAlignment in
  let '(weightsBuffer, heap3) :=
    alignedAlloc heap2 (mutableWeightSize bundle) TensorAlignment in
  (* no return follows this readyCB *)
  let ready1 :=
    if (activationsBuffer =? 0) || (weightsBuffer =? 0)
    then ls_ready st ++ [(module, OutOfDeviceMemory)]
    else ls_ready st in
  let deviceBuffer :=
    CPUBuffer_new activationsBuffer (activationsSize bundle)
                  weightsBuffer (mutableWeightSize bundle) in
  (* a unique_ptr that emplace does not take is destroyed with its buffer *)
  let heap4 :=
    match buffers_ d !! name with
    | Some _ => CPUBuffer_destroy heap3 deviceBuffer
    | None => heap3
    end in
  {| ls_device :=
       {| functions_ := functions1;
          buffers_ := emplace name deviceBuffer (buffers_ d);
          maxMemoryBytes_ := maxMemoryBytes_ d;
          usedMemoryBytes_ := used1 |};
     ls_heap := heap4;
     ls_ready := ready1 |}.

Definition addFunctions (module : Module_) (functions : FunctionMapTy)
    (st : LoadState) : LoadState :=
  fold_left (fun st entry => addFunction module entry st) functions st.

(** Result of a load: the state it leaves, the [readyCB] invocations in
    order, and whether the [assert] before the final callback failed (the
    process then aborts and the final callback is never made). *)
Record LoadResult := {
  ld_device : CPUDeviceManager;
  ld_heap : Heap;
  ld_ready : list (Module_ * Error);
  ld_assert_failed : bool;
}.

Definition addNetworkImpl (d : CPUDeviceManager) (heap : Heap)
    (module : Module_) (functions : FunctionMapTy) : LoadResult :=
  match checkFunctions (functions_ d) functions with
  | Some err =>
      {| ld_device := d; ld_heap := heap; ld_ready := [(module, err)];
         ld_assert_failed := false |}
  | None =>
      if u64 (usedMemoryBytes_ d + functionCost_) >? maxMemoryBytes_ d
      then {| ld_device := d; ld_heap := heap;
              ld_ready := [(module, OutOfDeviceMemory)];
              ld_assert_failed := false |}
      else
        let st := addFunctions module functions
                    {| ls_device := d; ls_heap := heap; ls_ready := [] |} in
        if negb NDEBUG
           && negb (usedMemoryBytes_ (ls_device st) <=? maxMemoryBytes_ (ls_device st))
        then {| ld_device := ls_device st; ld_heap := ls_heap st;
                ld_ready := ls_ready st; ld_assert_failed := true |}
        else {| ld_device := ls_device st; ld_heap := ls_heap st;
                ld_ready := ls_ready st ++ [(module, success)];
                ld_assert_failed := false |}
  end.

(** A load reports success when [readyCB] is invoked with success. *)
Definition reportsSuccess (module : Module_) (r : LoadResult) : Prop :=
  In (module, success) (ld_ready r).

(** *** evictNetworkImpl *)

Record EvictResult := {
  ev_device : CPUDeviceManager;
  ev_heap : Heap;
  ev_evicted : list (string * Error);
}.

Definition evictNetworkImpl (d : CPUDeviceManager) (heap : Heap)
    (functionName : string) : EvictResult :=
  match functions_ d !! functionName with
  | Some _ =>
      {| ev_device :=
           {| functions_ := delete functionName (functions_ d);
              buffers_ := delete functionName (buffers_ d);
              maxMemoryBytes_ := maxMemoryBytes_ d;
              usedMemoryBytes_ := u64 (usedMemoryBytes_ d - functionCost_) |};
         ev_heap :=
           match buffers_ d !! functionName with
           | Some b => CPUBuffer_destroy heap b
           | None => heap
           end;
         ev_evicted := [(functionName, success)] |}
  | None =>
      {| ev_device := d; ev_heap := heap;
         ev_evicted := [(functionName, EvictNotFound functionName)] |}
  end.


(** *** runFunctionImpl *)

(** A run either returns, leaving a device state, the [resultCB]
    invocations it made and the [CPUBuffer] member functions it called (with
    the name of the function whose buffer it is), or it has undefined
    behaviour: [buffers_[function]] on a missing key adds a null
    [unique_ptr], which is then dereferenced.  The two accessor calls are
    arguments of one call; they are listed in the order they are written,
    which the language does not make their order of evaluation. *)
Inductive RunResult :=
  | RunReturned (d : CPUDeviceManager)
      (results : list (RunIdentifierTy * Error * ExecutionContext))
      (bufferCalls : list (string * BufferCall))
  | RunUndefined.

Definition runFunctionImpl (d : CPUDeviceManager) (id : RunIdentifierTy)
    (function : string) (context : ExecutionContext) : RunResult :=
  match functions_ d !! function with
  | None => RunReturned d [(id, RunNotFound function, context)] []
  | Some func =>
      match buffers_ d !! function with
      | None => RunUndefined
      | Some buffer =>
          let cpuBindings :=
            {| bindingsActivations := getActivationsBuffer buffer;
               bindingsWeights := getWeightsBuffer buffer |} in
          let context1 := setDeviceBindings context cpuBindings in
          let '(executeErr, context2) := execute func context1 in
          RunReturned d [(id, executeErr, context2)]
            [(function, CallGetActivationsBuffer);
             (function, CallGetWeightsBuffer)]
      end
  end.

(** *** getRemotePeerToPeerAddress *)

Inductive PeerAddress :=
  | PeerAddr (res : Z)
  | PeerError (e : Error)
  | PeerUndefined.

(** What the call wrote to [llvm::outs()] and what it returned; the value is
    [PeerUndefined] where the code dereferences a null pointer or the end
    iterator of the symbol table. *)
Record PeerResult := {
  peer_outs : list string;
  peer_value : PeerAddress;
}.

Definition getRemotePeerToPeerAddress (d : CPUDeviceManager) (channelId : Z)
    (bindings : PlaceholderBindings) : PeerResult :=
  let function := "recv_func"%string in
  match functions_ d !! function with
  | Some func =>
      match buffers_ d !! function with
      | None => {| peer_outs := []; peer_value := PeerUndefined |}
      | Some buffer =>
          let baseAddress := getWeightsBuffer buffer in
          let table := symbolTable (getRuntimeBundle func) in
          match getPlaceholderByName bindings "recv_input" with
          | None => {| peer_outs := []; peer_value := PeerUndefined |}
          | Some PH =>
              match table !! getName PH with
              | None =>
                  (* the message is printed and [it->second] is read anyway *)
                  {| peer_outs := ["Did not find symbol" +:+ newline];
                     peer_value := PeerUndefined |}
              | Some symbolInfo =>
                  let addr := offset symbolInfo in
                  {| peer_outs := [];
                     peer_value := PeerAddr (to_int64 (baseAddress + addr)) |}
              end
          end
      end
  | None =>
      {| peer_outs := []; peer_value := PeerError RemoteAddressUnavailable |}
  end.

(** *** createCPUDeviceManager *)

Record DeviceConfig := {
  configBackendName : string;
  deviceMemory : Z;
}.

Definition setDeviceMemory (config : DeviceConfig) (bytes : Z) : DeviceConfig :=
  {| configBackendName := configBackendName config; deviceMemory := bytes |}.

(** Modelled from the spec: the constructors of the base classes are not in
    this unit.  The device configuration supplies the maximum memory at
    construction; a new device has nothing loaded and nothing used. *)
Definition CPUDeviceManager_new (config : DeviceConfig) : CPUDeviceManager :=
  {| functions_ := ∅;
     buffers_ := ∅;
     maxMemoryBytes_ := deviceMemory config;
     usedMemoryBytes_ := 0 |}.

(** [GlowCPUMemory] is the [unsigned] behind the [cpu-memory] flag, in
    kilobytes; it is widened to 64 bits before the multiplication. *)
Definition createCPUDeviceManager (GlowCPUMemory : Z) (config : DeviceConfig)
  : CPUDeviceManager :=
  if negb (GlowCPUMemory =? 0)
  then
    let configNew := setDeviceMemory config (u64 (GlowCPUMemory * 1024)) in
    CPUDeviceManager_new configNew
  else CPUDeviceManager_new config.

(** ** Reachable device states *)

(** Every registered function has its buffer: both maps gain and lose a key
    together. *)
Definition buffersConsistent (d : CPUDeviceManager) : Prop :=
  forall name, is_Some (functions_ d !! name) <-> is_Some (buffers_ d !! name).

End Device.

(** ** A concrete host, for evaluating the operations *)

(** A bump allocator over addresses, or one that has run out of memory. *)
Definition exampleHost (ndebug allocFails : bool) (cost : Z) : Platform :=
  {| Heap := Z;
     alignedAlloc := fun next size alignment =>
       if allocFails then (0, next)
       else let p := ((next + alignment - 1) / alignment) * alignment in
            (p, p + Z.max size 1);
     alignedFree := fun next _ => next;
     TensorAlignment := 64;
     Module_ := string;
     collectConstants := fun next bundle _ =>
       ({| constants := 4096;
           activationsSize := activationsSize bundle;
           mutableWeightSize := mutableWeightSize bundle;
           symbolTable := symbolTable bundle |}, next);
     NDEBUG := ndebug;
     functionCost_ := cost |}.

Definition exampleBundle (symbols : gmap string RuntimeSymbolInfo) : RuntimeBundle :=
  {| constants := 0;
     activationsSize := 128;
     mutableWeightSize := 256;
     symbolTable := symbols |}.

(** A function compiled for [backend] whose execution reports [outcome]. *)
Definition exampleFunction (backend : string) (outcome : Error)
    (symbols : gmap string RuntimeSymbolInfo) : CompiledFunction :=
  {| getCompileBackendName := backend;
     getRuntimeBundle := exampleBundle symbols;
     execute := fun context => (outcome, context) |}.

Definition cpuFunction : CompiledFunction := exampleFunction "CPU" success ∅.

Definition exampleDevice (maxBytes : Z) : CPUDeviceManager :=
  CPUDeviceManager_new {| configBackendName := "CPU"; deviceMemory := maxBytes |}.

Definition exampleContext : ExecutionContext :=
  {| placeholderBindings := [ {| getName := "recv_input" |} ];
     deviceBindings := None |}.

Definition interpreterFunction : CompiledFunction :=
  exampleFunction "Interpreter" success ∅.

(** The scenario of the specification: capacity 1000, flat cost 400, an
    optimised build ([NDEBUG]) whose allocator has memory. *)
Definition scenarioHost : Platform := exampleHost true false 400.

(** The scenario device after [A] has been loaded. *)
Definition deviceWithA : CPUDeviceManager :=
  ld_device (addNetworkImpl (P := scenarioHost) (exampleDevice 1000) 64
               "m"%string [("A"%string, cpuFunction)]).

(** A device on which the receiving function of peer transfers is loaded,
    with the given symbol table. *)
Definition deviceWithRecv (symbols : gmap string RuntimeSymbolInfo)
  : CPUDeviceManager :=
  ld_device (addNetworkImpl (P := scenarioHost) (exampleDevice 1000) 64
               "m"%string
               [("recv_func"%string, exampleFunction "CPU" success symbols)]).

(** A host whose allocator always has memory: every request is answered
    with a region at a fresh non-null address. *)
Definition steadyHost (ndebug : bool) (cost : Z) : Platform :=
  {| Heap := positive;
     alignedAlloc := fun next _ _ => (Z.pos next, Pos.succ next);
     alignedFree := fun next _ => next;
     TensorAlignment := 64;
     Module_ := string;
     collectConstants := fun next bundle _ => (bundle, next);
     NDEBUG := ndebug;
     functionCost_ := cost |}.

(** ** Histories of a device *)

Section Histories.
Context `{P : Platform}.

(** One call into the device, with the host heap it runs on.  The batch of a
    load is a [std::map], so its keys are distinct.  A run contributes a step
    when it returns. *)
Inductive deviceStep
  : CPUDeviceManager * Heap -> CPUDeviceManager * Heap -> Prop :=
  | step_addNetwork d heap module functions :
      NoDup (map fst functions) ->
      deviceStep (d, heap)
        (ld_device (addNetworkImpl d heap module functions),
         ld_heap (addNetworkImpl d heap module functions))
  | step_evictNetwork d heap functionName :
      deviceStep (d, heap)
        (ev_device (evictNetworkImpl d heap functionName),
         ev_heap (evictNetworkImpl d heap functionName))
  | step_runFunction d heap id function context d' results bufferCalls :
      runFunctionImpl d id function context
      = RunReturned d' results bufferCalls ->
      deviceStep (d, heap) (d', heap).

(** Any number of calls, one after the other. *)
Inductive deviceSteps
  : CPUDeviceManager * Heap -> CPUDeviceManager * Heap -> Prop :=
  | steps_none s : deviceSteps s s
  | steps_more s1 s2 s3 :
      deviceSteps s1 s2 -> deviceStep s2 s3 -> deviceSteps s1 s3.

(** The ledger charges the flat cost once per registered function. *)
Definition ledgerExact (d : CPUDeviceManager) : Prop :=
  usedMemoryBytes_ d = u64 (Z.of_nat (size (functions_ d)) * functionCost_).

(** The bundle a load registers for a function, and the heap after it:
    [collectConstants] runs only when the bundle has no constants yet. *)
Definition bundleForLoad (heap : Heap) (module : Module_)
    (func : CompiledFunction) : RuntimeBundle * Heap :=
  if constants (getRuntimeBundle func) =? 0
  then collectConstants heap (getRuntimeBundle func) module
  else (getRuntimeBundle func, heap).

End Histories.

(** * Properties *)

Section DeviceFacts.
Context `{P : Platform}.

(** ** Arithmetic of the counters *)

Lemma u64_range z : is_u64 (u64 z).
Proof. unfold is_u64, u64, u64_modulus. apply Z.mod_pos_bound. lia. Qed.

Lemma u64_id z : is_u64 z -> u64 z = z.
Proof. unfold is_u64, u64. intros Hz. apply Z.mod_small. exact Hz. Qed.

(** Adding the cost and taking it away again restores a counter, wrap-around
    included. *)
Lemma u64_add_sub x c : is_u64 x -> u64 (u64 (x + c) - c) = x.
Proof.
  intros Hx. unfold u64. rewrite Zminus_mod_idemp_l.
  replace (x + c - c) with x by lia. apply Z.mod_small. exact Hx.
Qed.

(** ** The validation loop *)

Lemma checkFunctions_app_registered registered pre name func post :
  Forall (fun e : string * CompiledFunction => registered !! e.1 = None) pre ->
  is_Some (registered !! name) ->
  (Forall (fun e : string * CompiledFunction =>
             getCompileBackendName e.2 = "CPU"%string) pre /\
   checkFunctions registered (pre ++ (name, func) :: post)
     = Some (DuplicateFunction name))
  \/ (exists pre1 n f pre2,
        pre = pre1 ++ (n, f) :: pre2 /\
        Forall (fun e : string * CompiledFunction =>
                  getCompileBackendName e.2 = "CPU"%string) pre1 /\
        getCompileBackendName f <> "CPU"%string /\
        checkFunctions registered (pre ++ (name, func) :: post)
          = Some (WrongBackend n)).
Proof.
  intros Hpre Hname. induction Hpre as [| [n f] pre Hn Hpre IH]; simpl.
  - left. split; [constructor |]. by rewrite bool_decide_eq_true_2.
  - simpl in Hn. rewrite bool_decide_eq_false_2; [| rewrite Hn; by intros [? ?]].
    destruct (String.eqb (getCompileBackendName f) "CPU") eqn:Hb; simpl.
    + apply String.eqb_eq in Hb.
      destruct IH as [[Hall Hc] | (pre1 & n' & f' & pre2 & -> & Hall & Hne & Hc)].
      * left. split; [by constructor | exact Hc].
      * right. exists ((n, f) :: pre1), n', f', pre2.
        split; [reflexivity |]. split; [by constructor |]. auto.
    + apply String.eqb_neq in Hb. right. exists [], n, f, pre.
      split; [reflexivity |]. split; [constructor |]. auto.
Qed.

(** A batch that names a registered function splits at the first such name. *)
Lemma first_registered_split (registered : gmap string CompiledFunction)
    (functions : FunctionMapTy) :
  (exists name func, In (name, func) functions /\ is_Some (registered !! name)) ->
  exists pre name func post,
    functions = pre ++ (name, func) :: post /\
    is_Some (registered !! name) /\
    Forall (fun e : string * CompiledFunction => registered !! e.1 = None) pre.
Proof.
  induction functions as [| [n f] rest IH]; intros (name & func & Hin & Hreg).
  - destruct Hin.
  - destruct (registered !! n) eqn:Hn.
    + exists [], n, f, rest. rewrite Hn. repeat split; eauto.
    + destruct Hin as [Heq | Hin].
      * inversion Heq; subst. rewrite Hn in Hreg. by destruct Hreg.
      * destruct IH as (pre & name' & func' & post & -> & Hreg' & Hpre); [eauto |].
        exists ((n, f) :: pre), name', func', post. repeat split; auto.
Qed.

Lemma checkFunctions_none_unregistered registered functions name func :
  checkFunctions registered functions = None ->
  In (name, func) functions -> registered !! name = None.
Proof.
  induction functions as [| [n f] rest IH]; simpl; [tauto |].
  intros Hc Hin. case_bool_decide as Hreg; [discriminate |].
  destruct (negb _); [discriminate |].
  destruct Hin as [Heq | Hin]; [| auto].
  inversion Heq; subst. destruct (registered !! name); [| done].
  exfalso. apply Hreg. eauto.
Qed.

(** ** The registration loop *)

Lemma emplace_is_Some {V : Type} (k k' : string) (v : V) (m : gmap string V) :
  is_Some (emplace k v m !! k') <-> k = k' \/ is_Some (m !! k').
Proof.
  unfold emplace. destruct (m !! k) eqn:Hk.
  - split; [tauto |]. intros [<- | H]; [rewrite Hk; eauto | exact H].
  - rewrite lookup_insert. case_decide as Hkk; split; eauto.
    intros [Heq | Hs]; [contradiction | exact Hs].
Qed.

Lemma addFunction_maxMemoryBytes module entry st :
  maxMemoryBytes_ (ls_device (addFunction module entry st))
  = maxMemoryBytes_ (ls_device st).
Proof.
  unfold addFunction. destruct entry as [name func].
  destruct (if constants (getRuntimeBundle func) =? 0 then _ else _) as [bundle heap1].
  destruct (alignedAlloc heap1 _ _) as [a heap2].
  destruct (alignedAlloc heap2 _ _) as [w heap3]. reflexivity.
Qed.

Lemma addFunction_usedMemoryBytes module entry st :
  usedMemoryBytes_ (ls_device (addFunction module entry st))
  = u64 (usedMemoryBytes_ (ls_device st) + functionCost_).
Proof.
  unfold addFunction. destruct entry as [name func].
  destruct (if constants (getRuntimeBundle func) =? 0 then _ else _) as [bundle heap1].
  destruct (alignedAlloc heap1 _ _) as [a heap2].
  destruct (alignedAlloc heap2 _ _) as [w heap3]. reflexivity.
Qed.

Lemma addFunction_functions module entry st name :
  is_Some (functions_ (ls_device (addFunction module entry st)) !! name)
  <-> entry.1 = name \/ is_Some (functions_ (ls_device st) !! name).
Proof.
  unfold addFunction. destruct entry as [n func].
  destruct (if constants (getRuntimeBundle func) =? 0 then _ else _) as [bundle heap1].
  destruct (alignedAlloc heap1 _ _) as [a heap2].
  destruct (alignedAlloc heap2 _ _) as [w heap3]. simpl.
  apply emplace_is_Some.
Qed.

Lemma addFunction_buffers module entry st name :
  is_Some (buffers_ (ls_device (addFunction module entry st)) !! name)
  <-> entry.1 = name \/ is_Some (buffers_ (ls_device st) !! name).
Proof.
  unfold addFunction. destruct entry as [n func].
  destruct (if constants (getRuntimeBundle func) =? 0 then _ else _) as [bundle heap1].
  destruct (alignedAlloc heap1 _ _) as [a heap2].
  destruct (alignedAlloc heap2 _ _) as [w heap3]. simpl.
  apply emplace_is_Some.
Qed.

Lemma addFunction_consistent module entry st :
  buffersConsistent (ls_device st) ->
  buffersConsistent (ls_device (addFunction module entry st)).
Proof.
  intros Hc name. rewrite addFunction_functions, addFunction_buffers.
  specialize (Hc name). tauto.
Qed.

Lemma addFunctions_consistent module functions st :
  buffersConsistent (ls_device st) ->
  buffersConsistent (ls_device (addFunctions module functions st)).
Proof.
  revert st. induction functions as [| entry rest IH]; intros st Hc; [exact Hc |].
  simpl. apply IH. by apply addFunction_consistent.
Qed.

Lemma addFunctions_maxMemoryBytes module functions st :
  maxMemoryBytes_ (ls_device (addFunctions module functions st))
  = maxMemoryBytes_ (ls_device st).
Proof.
  revert st. induction functions as [| entry rest IH]; intros st; [reflexivity |].
  simpl. fold (addFunctions module rest (addFunction module entry st)).
  rewrite IH. apply addFunction_maxMemoryBytes.
Qed.

Lemma addFunctions_functions module functions st name :
  is_Some (functions_ (ls_device (addFunctions module functions st)) !! name)
  <-> (exists func, In (name, func) functions)
      \/ is_Some (functions_ (ls_device st) !! name).
Proof.
  revert st. induction functions as [| [n f] rest IH]; intros st.
  - simpl. split; [auto |]. intros [[? []] | H]; exact H.
  - change (addFunctions module ((n, f) :: rest) st)
      with (addFunctions module rest (addFunction module (n, f) st)).
    rewrite IH, addFunction_functions. simpl. split.
    + intros [[func Hin] | [<- | H]]; eauto.
    + intros [[func [Heq | Hin]] | H]; eauto.
      inversion Heq; subst. auto.
Qed.

Lemma u64_add_idemp a c : u64 (u64 a + c) = u64 (a + c).
Proof. unfold u64. apply Zplus_mod_idemp_l. Qed.

(** The loop charges the flat cost once per entry of the batch, whatever the
    capacity check looked at. *)
Lemma addFunctions_usedMemoryBytes module functions st :
  usedMemoryBytes_ (ls_device (addFunctions module functions st))
  = match functions with
    | [] => usedMemoryBytes_ (ls_device st)
    | _ :: _ => u64 (usedMemoryBytes_ (ls_device st)
                     + Z.of_nat (length functions) * functionCost_)
    end.
Proof.
  revert st. induction functions as [| entry rest IH]; intros st; [reflexivity |].
  change (addFunctions module (entry :: rest) st)
    with (addFunctions module rest (addFunction module entry st)).
  rewrite IH, addFunction_usedMemoryBytes. destruct rest as [| e rest'].
  - simpl. f_equal. lia.
  - rewrite u64_add_idemp. f_equal.
    change (length (entry :: e :: rest')) with (S (length (e :: rest'))). lia.
Qed.

(** ** Loads and evictions keep the two maps in step *)

Lemma CPUDeviceManager_new_consistent config :
  buffersConsistent (CPUDeviceManager_new config).
Proof.
  intros name. simpl. rewrite !lookup_empty. split; intros [? ?]; discriminate.
Qed.

Lemma addNetworkImpl_consistent d heap module functions :
  buffersConsistent d ->
  buffersConsistent (ld_device (addNetworkImpl d heap module functions)).
Proof.
  intros Hc. unfold addNetworkImpl.
  destruct (checkFunctions _ _); [exact Hc |].
  destruct (_ >? _); [exact Hc |].
  destruct (negb NDEBUG && _); simpl; by apply addFunctions_consistent.
Qed.

Lemma evictNetworkImpl_consistent d heap functionName :
  buffersConsistent d ->
  buffersConsistent (ev_device (evictNetworkImpl d heap functionName)).
Proof.
  intros Hc. unfold evictNetworkImpl.
  destruct (functions_ d !! functionName) eqn:Hf; [| exact Hc].
  intros name. simpl. rewrite !lookup_delete.
  case_decide; [split; by intros [? ?] | apply Hc].
Qed.

(** ** What a load that reports success has done *)

Lemma checkFunctions_error registered functions err :
  checkFunctions registered functions = Some err -> err <> success.
Proof.
  induction functions as [| [n f] rest IH]; simpl; [discriminate |].
  case_bool_decide; [by intros [= <-] |].
  destruct (negb _); [by intros [= <-] | exact IH].
Qed.

Lemma addFunction_ready module entry st :
  ls_ready (addFunction module entry st) = ls_ready st
  \/ ls_ready (addFunction module entry st)
     = ls_ready st ++ [(module, OutOfDeviceMemory)].
Proof.
  unfold addFunction. destruct entry as [name func].
  destruct (if constants (getRuntimeBundle func) =? 0 then _ else _) as [bundle heap1].
  destruct (alignedAlloc heap1 _ _) as [a heap2].
  destruct (alignedAlloc heap2 _ _) as [w heap3]. simpl.
  destruct ((a =? 0) || (w =? 0)); auto.
Qed.

(** The registration loop never reports success itself. *)
Lemma addFunctions_ready module functions st :
  ~ In (module, success) (ls_ready st) ->
  ~ In (module, success) (ls_ready (addFunctions module functions st)).
Proof.
  revert st. induction functions as [| entry rest IH]; intros st Hst; [exact Hst |].
  change (addFunctions module (entry :: rest) st)
    with (addFunctions module rest (addFunction module entry st)).
  apply IH. destruct (addFunction_ready module entry st) as [-> | ->]; [exact Hst |].
  rewrite in_app_iff. intros [Hin | [Heq | []]]; [auto | discriminate].
Qed.

(** A load that reports success passed both checks and ran the registration
    loop over the whole batch. *)
Lemma addNetworkImpl_success_inv d heap module functions :
  reportsSuccess module (addNetworkImpl d heap module functions) ->
  checkFunctions (functions_ d) functions = None /\
  u64 (usedMemoryBytes_ d + functionCost_) <= maxMemoryBytes_ d /\
  ld_device (addNetworkImpl d heap module functions)
  = ls_device (addFunctions module functions
                 {| ls_device := d; ls_heap := heap; ls_ready := [] |}) /\
  ld_heap (addNetworkImpl d heap module functions)
  = ls_heap (addFunctions module functions
               {| ls_device := d; ls_heap := heap; ls_ready := [] |}).
Proof.
  unfold reportsSuccess, addNetworkImpl.
  destruct (checkFunctions _ _) as [err |] eqn:Hcheck.
  { simpl. intros [Heq | []]. inversion Heq; subst.
    by apply checkFunctions_error in Hcheck. }
  destruct (_ >? _) eqn:Hcap.
  { simpl. intros [Heq | []]. discriminate. }
  intros Hin. split; [reflexivity |]. split; [lia |].
  destruct (negb NDEBUG && _); simpl in *; [| done].
  exfalso. revert Hin. apply addFunctions_ready. simpl. tauto.
Qed.

(** For a single function the admission check bounds the counter the load
    leaves. *)
Lemma addNetworkImpl_single_within_capacity d heap module name func :
  let r := addNetworkImpl d heap module [(name, func)] in
  reportsSuccess module r ->
  usedMemoryBytes_ (ld_device r) <= maxMemoryBytes_ (ld_device r).
Proof.
  intros r Hok. subst r.
  destruct (addNetworkImpl_success_inv _ _ _ _ Hok) as (_ & Hcap & -> & _).
  change (addFunctions module [(name, func)] ?st)
    with (addFunction module (name, func) st).
  rewrite addFunction_usedMemoryBytes, addFunction_maxMemoryBytes. exact Hcap.
Qed.

(** ** Eviction *)

(** C6: evicting a name that is not registered invokes the callback once,
    with the not-found failure ([RUNTIME_NET_NOT_FOUND]), and changes nothing:
    the device (its [usedMemoryBytes_], [functions_] and [buffers_]) and the
    host heap are the ones the call started from. *)
Theorem evictNetworkImpl_unknown_name d heap functionName :
  functions_ d !! functionName = None ->
  let r := evictNetworkImpl d heap functionName in
  ev_evicted r = [(functionName, EvictNotFound functionName)] /\
  isFunctionNotFound (EvictNotFound functionName) /\
  ev_device r = d /\
  usedMemoryBytes_ (ev_device r) = usedMemoryBytes_ d /\
  functions_ (ev_device r) = functions_ d /\
  buffers_ (ev_device r) = buffers_ d /\
  ev_heap r = heap.
Proof.
  intros Hnone r. subst r. unfold evictNetworkImpl. rewrite Hnone. simpl.
  repeat split; reflexivity.
Qed.

(** Evicting a registered name succeeds and gives its flat cost back. *)
Lemma evictNetworkImpl_registered d heap functionName :
  is_Some (functions_ d !! functionName) ->
  let r := evictNetworkImpl d heap functionName in
  ev_evicted r = [(functionName, success)] /\
  usedMemoryBytes_ (ev_device r) = u64 (usedMemoryBytes_ d - functionCost_) /\
  maxMemoryBytes_ (ev_device r) = maxMemoryBytes_ d /\
  functions_ (ev_device r) !! functionName = None /\
  buffers_ (ev_device r) !! functionName = None.
Proof.
  intros [func Hf] r. subst r. unfold evictNetworkImpl. rewrite Hf. simpl.
  rewrite !lookup_delete_eq. repeat split; reflexivity.
Qed.

(** C7: after a load of one function that reports success, evicting that
    function succeeds and puts [usedMemoryBytes_], [getAvailableMemory()] and
    the maximum back to their values before the load. *)
Theorem load_evict_round_trip d heap module name func :
  is_u64 (usedMemoryBytes_ d) ->
  let loaded := addNetworkImpl d heap module [(name, func)] in
  reportsSuccess module loaded ->
  let evicted := evictNetworkImpl (ld_device loaded) (ld_heap loaded) name in
  ev_evicted evicted = [(name, success)] /\
  usedMemoryBytes_ (ev_device evicted) = usedMemoryBytes_ d /\
  getAvailableMemory (ev_device evicted) = getAvailableMemory d /\
  getMaximumMemory (ev_device evicted) = getMaximumMemory d.
Proof.
  intros Hused loaded Hok evicted. subst evicted loaded.
  destruct (addNetworkImpl_success_inv _ _ _ _ Hok) as (_ & _ & Hdev & _).
  change (addFunctions module [(name, func)] ?st)
    with (addFunction module (name, func) st) in Hdev.
  set (st0 := {| ls_device := d; ls_heap := heap; ls_ready := [] |}) in *.
  assert (Hreg : is_Some (functions_ (ls_device (addFunction module (name, func) st0))
                            !! name)).
  { apply addFunction_functions. left. reflexivity. }
  rewrite <- Hdev in Hreg.
  destruct (evictNetworkImpl_registered _ (ld_heap (addNetworkImpl d heap module [(name, func)]))
              _ Hreg) as (Hcb & Hu & Hm & _).
  assert (Hused' : usedMemoryBytes_
                     (ev_device (evictNetworkImpl
                        (ld_device (addNetworkImpl d heap module [(name, func)]))
                        (ld_heap (addNetworkImpl d heap module [(name, func)])) name))
                   = usedMemoryBytes_ d).
  { rewrite Hu, Hdev, addFunction_usedMemoryBytes. simpl. by apply u64_add_sub. }
  assert (Hmax' : maxMemoryBytes_
                    (ev_device (evictNetworkImpl
                       (ld_device (addNetworkImpl d heap module [(name, func)]))
                       (ld_heap (addNetworkImpl d heap module [(name, func)])) name))
                  = maxMemoryBytes_ d).
  { rewrite Hm, Hdev, addFunction_maxMemoryBytes. reflexivity. }
  split; [exact Hcb |]. split; [exact Hused' |].
  unfold getAvailableMemory, getMaximumMemory. rewrite Hused', Hmax'. auto.
Qed.

(** ** Running *)

(** C9: running a name that is not registered invokes the result callback
    once, with the not-found failure ([RUNTIME_NET_NOT_FOUND]) and with the
    very context the caller passed in; the device is untouched and no buffer
    is asked for. *)
Theorem runFunctionImpl_unknown_name d id function context :
  functions_ d !! function = None ->
  runFunctionImpl d id function context
  = RunReturned d [(id, RunNotFound function, context)] []
  /\ isFunctionNotFound (RunNotFound function).
Proof.
  intros Hnone. unfold runFunctionImpl. rewrite Hnone. split; reflexivity.
Qed.

(** C3, as the code has it: running a registered function of a device whose
    maps are in step invokes the result callback exactly once, with the
    outcome and the context that [execute] produced, whatever that outcome
    is; the device, and so the free/busy partition of every buffer pool, is
    left as it was, because the only buffer member functions the run calls
    are the two region accessors: no slot is acquired or released. *)
Theorem runFunctionImpl_registered d id function context func :
  buffersConsistent d ->
  functions_ d !! function = Some func ->
  exists buffer executeErr context',
    buffers_ d !! function = Some buffer /\
    execute func
      (setDeviceBindings context
         {| bindingsActivations := getActivationsBuffer buffer;
            bindingsWeights := getWeightsBuffer buffer |})
    = (executeErr, context') /\
    runFunctionImpl d id function context
    = RunReturned d [(id, executeErr, context')]
        [(function, CallGetActivationsBuffer); (function, CallGetWeightsBuffer)].
Proof.
  intros Hc Hf.
  destruct (proj1 (Hc function)) as [buffer Hb]; [eauto |].
  unfold runFunctionImpl. rewrite Hf, Hb.
  destruct (execute func _) as [executeErr context'] eqn:He.
  exists buffer, executeErr, context'. repeat split; auto.
Qed.

(** ** Loading *)

(** C5, as the code has it: a load whose batch names a registered function
    invokes the callback once, with a failure, and leaves the device
    ([functions_], [buffers_], [usedMemoryBytes_]) and the heap unchanged.
    The failure is [DuplicateFunction] for the first registered name of the
    batch when every function before it is compiled for CPU; otherwise it is
    the wrong-backend failure of the first function of the batch, in
    iteration order, that is not compiled for CPU. *)
Theorem addNetworkImpl_registered_name d heap module functions :
  (exists name func, In (name, func) functions /\
                     is_Some (functions_ d !! name)) ->
  exists err pre name func post,
    addNetworkImpl d heap module functions
    = {| ld_device := d; ld_heap := heap; ld_ready := [(module, err)];
         ld_assert_failed := false |} /\
    err <> success /\
    functions = pre ++ (name, func) :: post /\
    is_Some (functions_ d !! name) /\
    Forall (fun e : string * CompiledFunction => functions_ d !! e.1 = None) pre /\
    ((Forall (fun e : string * CompiledFunction =>
                getCompileBackendName e.2 = "CPU"%string) pre /\
      err = DuplicateFunction name)
     \/ (exists pre1 n f pre2,
           pre = pre1 ++ (n, f) :: pre2 /\
           Forall (fun e : string * CompiledFunction =>
                     getCompileBackendName e.2 = "CPU"%string) pre1 /\
           getCompileBackendName f <> "CPU"%string /\
           err = WrongBackend n)).
Proof.
  intros Hdup.
  destruct (first_registered_split _ _ Hdup)
    as (pre & name & func & post & -> & Hreg & Hpre).
  destruct (checkFunctions_app_registered (functions_ d) pre name func post Hpre Hreg)
    as [[Hcpu Hc] | (pre1 & n & f & pre2 & Hsplit & Hcpu & Hne & Hc)].
  - exists (DuplicateFunction name), pre, name, func, post.
    unfold addNetworkImpl. rewrite Hc. repeat split; auto; discriminate.
  - exists (WrongBackend n), pre, name, func, post.
    unfold addNetworkImpl. rewrite Hc.
    split; [reflexivity |]. split; [discriminate |]. split; [reflexivity |].
    split; [exact Hreg |]. split; [exact Hpre |].
    right. exists pre1, n, f, pre2. auto.
Qed.

(** ** Memory accessors *)

(** C8, as the code has it: [isMemoryAvailable] compares the 64-bit unsigned
    sum of [usedMemoryBytes_] and the estimate with [maxMemoryBytes_], so it
    is true exactly when that wrapped sum is at most the maximum, which is
    [usedMemoryBytes_ + estimate <= maxMemoryBytes_] whenever the sum fits
    in 64 bits.  It is the comparison of the capacity check of a load, taken
    at the flat function cost: a batch that passes the per-function checks is
    turned away for lack of memory exactly when
    [isMemoryAvailable functionCost_] is false.  The accessor only reads the
    device. *)
Theorem isMemoryAvailable_spec d estimate :
  (isMemoryAvailable d estimate = true
   <-> u64 (usedMemoryBytes_ d + estimate) <= maxMemoryBytes_ d) /\
  (is_u64 (usedMemoryBytes_ d + estimate) ->
   (isMemoryAvailable d estimate = true
    <-> usedMemoryBytes_ d + estimate <= maxMemoryBytes_ d)) /\
  (forall heap module functions,
     checkFunctions (functions_ d) functions = None ->
     (isMemoryAvailable d functionCost_ = false
      <-> addNetworkImpl d heap module functions
          = {| ld_device := d; ld_heap := heap;
               ld_ready := [(module, OutOfDeviceMemory)];
               ld_assert_failed := false |})).
Proof.
  assert (Hwrap : forall e, isMemoryAvailable d e = true
                  <-> u64 (usedMemoryBytes_ d + e) <= maxMemoryBytes_ d).
  { intros e. unfold isMemoryAvailable. rewrite Z.geb_leb. apply Z.leb_le. }
  split; [apply Hwrap |]. split.
  - intros Hfit. rewrite Hwrap, (u64_id _ Hfit). reflexivity.
  - intros heap module functions Hcheck.
    unfold addNetworkImpl. rewrite Hcheck.
    destruct (isMemoryAvailable d functionCost_) eqn:Hav.
    + apply Hwrap in Hav.
      replace (u64 (usedMemoryBytes_ d + functionCost_) >? maxMemoryBytes_ d)
        with false by (symmetry; rewrite Z.gtb_ltb; apply Z.ltb_ge; lia).
      split; [discriminate |].
      destruct (negb NDEBUG && _); intros Heq.
      * apply (f_equal ld_assert_failed) in Heq. discriminate.
      * apply (f_equal ld_ready) in Heq. simpl in Heq.
        destruct (ls_ready (addFunctions module functions _)) as [| c l];
          simpl in Heq; [discriminate |].
        destruct l; discriminate.
    + assert (Hgt : (u64 (usedMemoryBytes_ d + functionCost_) >? maxMemoryBytes_ d) = true).
      { rewrite Z.gtb_ltb. apply Z.ltb_lt.
        destruct (Z_le_gt_dec (u64 (usedMemoryBytes_ d + functionCost_))
                              (maxMemoryBytes_ d)) as [Hle | Hgt]; [| lia].
        apply Hwrap in Hle. congruence. }
      rewrite Hgt. split; auto.
Qed.

(** ** Peer addresses *)

(** When the receiving function is loaded and the placeholder is bound but
    its name is not in the symbol table, the resolver prints and then reads
    through the end iterator; it returns no error on that path. *)
Lemma getRemotePeerToPeerAddress_absent_undefined d channelId bindings
    func buffer PH :
  functions_ d !! "recv_func"%string = Some func ->
  buffers_ d !! "recv_func"%string = Some buffer ->
  getPlaceholderByName bindings "recv_input" = Some PH ->
  symbolTable (getRuntimeBundle func) !! getName PH = None ->
  getRemotePeerToPeerAddress d channelId bindings
  = {| peer_outs := ["Did not find symbol" +:+ newline];
       peer_value := PeerUndefined |}.
Proof.
  intros Hf Hb Hph Hsym. unfold getRemotePeerToPeerAddress.
  rewrite Hf, Hb, Hph, Hsym. reflexivity.
Qed.

(** The only error the resolver returns is the one for a receiving function
    that is not loaded. *)
Lemma getRemotePeerToPeerAddress_error d channelId bindings e :
  peer_value (getRemotePeerToPeerAddress d channelId bindings) = PeerError e ->
  functions_ d !! "recv_func"%string = None /\ e = RemoteAddressUnavailable.
Proof.
  unfold getRemotePeerToPeerAddress.
  destruct (functions_ d !! "recv_func"%string) as [func |].
  - destruct (buffers_ d !! "recv_func"%string); [| discriminate].
    destruct (getPlaceholderByName bindings "recv_input"); [| discriminate].
    destruct (symbolTable (getRuntimeBundle func) !! _); discriminate.
  - simpl. intros [= <-]. auto.
Qed.

(** ** Construction *)

(** C10: with a non-zero [cpu-memory] override (an [unsigned], in kilobytes)
    the device created by [createCPUDeviceManager] has a maximum memory of
    the override times 1024; with a zero override its maximum memory is the
    device memory of the configuration it was given. *)
Theorem createCPUDeviceManager_maximum GlowCPUMemory config :
  0 <= GlowCPUMemory < 2 ^ 32 ->
  (GlowCPUMemory <> 0 ->
   getMaximumMemory (createCPUDeviceManager GlowCPUMemory config)
   = GlowCPUMemory * 1024) /\
  (GlowCPUMemory = 0 ->
   getMaximumMemory (createCPUDeviceManager GlowCPUMemory config)
   = deviceMemory config).
Proof.
  intros Hrange. unfold createCPUDeviceManager, getMaximumMemory. split.
  - intros Hnz. destruct (GlowCPUMemory =? 0) eqn:Hz; [apply Z.eqb_eq in Hz; lia |].
    simpl. apply u64_id. unfold is_u64, u64_modulus. lia.
  - intros ->. reflexivity.
Qed.

End DeviceFacts.

(** * The operations on concrete devices *)

Example deviceWithA_ledger :
  usedMemoryBytes_ deviceWithA = 400 /\ getAvailableMemory deviceWithA = 600.
Proof. vm_compute. split; reflexivity. Qed.

Example getRemotePeerToPeerAddress_found :
  getRemotePeerToPeerAddress
    (deviceWithRecv {[ "recv_input"%string := {| offset := 16 |} ]}) 0
    [ {| getName := "recv_input" |} ]
  = {| peer_outs := []; peer_value := PeerAddr (192 + 16) |}.
Proof. vm_compute. reflexivity. Qed.

Example getRemotePeerToPeerAddress_not_loaded :
  getRemotePeerToPeerAddress (exampleDevice 1000) 0 [ {| getName := "recv_input" |} ]
  = {| peer_outs := []; peer_value := PeerError RemoteAddressUnavailable |}.
Proof. vm_compute. reflexivity. Qed.

(** The ledger scenario of the specification: capacity 1000, flat cost 400;
    [A] and [B] load, [C] is turned away with the counter left at 800,
    evicting [A] makes room and [C] loads. *)
Example ledger_scenario :
  let load d heap name :=
    addNetworkImpl (P := scenarioHost) d heap "m"%string [(name, cpuFunction)] in
  let s1 := load (exampleDevice 1000) 64 "A"%string in
  let s2 := load (ld_device s1) (ld_heap s1) "B"%string in
  let s3 := load (ld_device s2) (ld_heap s2) "C"%string in
  let s4 := evictNetworkImpl (P := scenarioHost) (ld_device s3) (ld_heap s3) "A" in
  let s5 := load (ev_device s4) (ev_heap s4) "C"%string in
  (ld_ready s1, usedMemoryBytes_ (ld_device s1)) = ([("m"%string, success)], 400) /\
  (ld_ready s2, usedMemoryBytes_ (ld_device s2)) = ([("m"%string, success)], 800) /\
  (ld_ready s3, usedMemoryBytes_ (ld_device s3))
    = ([("m"%string, OutOfDeviceMemory)], 800) /\
  (ev_evicted s4, usedMemoryBytes_ (ev_device s4)) = ([("A"%string, success)], 400) /\
  (ld_ready s5, usedMemoryBytes_ (ld_device s5)) = ([("m"%string, success)], 800).
Proof. vm_compute. repeat split; reflexivity. Qed.

(** C1: a load of the batch [A], [B], [C] on an empty device of capacity
    1000 with flat cost 400 passes the capacity check, which counts the cost
    once (0 + 400 <= 1000), and charges it three times.  Built with [NDEBUG]
    the load reports success, once, and leaves [usedMemoryBytes_] = 1200 above
    [maxMemoryBytes_] = 1000; built with assertions the [assert] on that very
    bound fails before any callback is made. *)
Theorem addNetworkImpl_batch_overcommits :
  let d := exampleDevice 1000 in
  let batch := [("A"%string, cpuFunction); ("B"%string, cpuFunction);
                ("C"%string, cpuFunction)] in
  let optimised :=
    addNetworkImpl (P := exampleHost true false 400) d 64 "m"%string batch in
  let checked :=
    addNetworkImpl (P := exampleHost false false 400) d 64 "m"%string batch in
  usedMemoryBytes_ d <= maxMemoryBytes_ d /\
  ld_ready optimised = [("m"%string, success)] /\
  ld_assert_failed optimised = false /\
  usedMemoryBytes_ (ld_device optimised) = 1200 /\
  maxMemoryBytes_ (ld_device optimised) = 1000 /\
  ~ usedMemoryBytes_ (ld_device optimised) <= maxMemoryBytes_ (ld_device optimised) /\
  ld_assert_failed checked = true /\
  ld_ready checked = [].
Proof.
  vm_compute. repeat split; try reflexivity; try discriminate.
  intros H; apply H; reflexivity.
Qed.

(** C2: when the allocator returns null for the buffers of [A], the load
    invokes the callback with the out-of-memory failure, goes on, and invokes
    it a second time with success; [A] stays registered, with a buffer made
    of two null regions, and its cost stays charged. *)
Theorem addNetworkImpl_allocation_failure_goes_on :
  let r := addNetworkImpl (P := exampleHost true true 400) (exampleDevice 1000)
             64 "m"%string [("A"%string, cpuFunction)] in
  ld_ready r = [("m"%string, OutOfDeviceMemory); ("m"%string, success)] /\
  ld_assert_failed r = false /\
  is_Some (functions_ (ld_device r) !! "A"%string) /\
  buffers_ (ld_device r) !! "A"%string = Some (CPUBuffer_new 0 128 0 256) /\
  usedMemoryBytes_ (ld_device r) = 400.
Proof.
  vm_compute. repeat split; try reflexivity. eexists; reflexivity.
Qed.

(** C4: with [recv_func] loaded and [recv_input] missing from its symbol
    table, the resolver prints its message and goes on to read through the
    end iterator: the call has no defined result, and in particular returns
    no error. *)
Theorem getRemotePeerToPeerAddress_symbol_absent :
  let r := getRemotePeerToPeerAddress (deviceWithRecv ∅) 0
             [ {| getName := "recv_input" |} ] in
  (exists func, functions_ (deviceWithRecv ∅) !! "recv_func"%string = Some func /\
                symbolTable (getRuntimeBundle func) !! "recv_input"%string = None) /\
  r = {| peer_outs := ["Did not find symbol" +:+ newline];
         peer_value := PeerUndefined |} /\
  forall e, peer_value r <> PeerError e.
Proof.
  repeat split.
  - eexists. split; vm_compute; reflexivity.
  - intros e. vm_compute. discriminate.
Qed.

(** ** Where the code departs from the stated behaviour *)

(** C3, counterexample: running the loaded function [A] under run
    identifier 7 does invoke the callback once and leaves the pool as it was,
    but it neither acquires nor releases a slot keyed by 7. *)
Lemma runFunctionImpl_no_acquire_release :
  ~ (exists d' result bufferCalls,
       runFunctionImpl deviceWithA 7 "A" exampleContext
       = RunReturned d' [result] bufferCalls /\
       (poolPartition <$> buffers_ d' !! "A"%string)
       = (poolPartition <$> buffers_ deviceWithA !! "A"%string) /\
       In ("A"%string, CallGetUnownedRequestBuffer 7) bufferCalls /\
       In ("A"%string, CallFreeRequestBuffer 7) bufferCalls).
Proof.
  intros (d' & result & bufferCalls & Hrun & _ & Hacquire & _).
  vm_compute in Hrun. inversion Hrun; subst.
  destruct Hacquire as [Heq | [Heq | []]]; discriminate.
Qed.

(** C5, counterexample: [b] is registered and the batch names it, but the
    batch also holds [a], visited first and not compiled for CPU; the load
    fails with the wrong-backend failure of [a], not with
    [DuplicateFunction]. *)
Lemma addNetworkImpl_duplicate_after_wrong_backend :
  let d := ld_device (addNetworkImpl (P := scenarioHost) (exampleDevice 1000) 64
                        "m"%string [("b"%string, cpuFunction)]) in
  let batch := [("a"%string, interpreterFunction); ("b"%string, cpuFunction)] in
  let r := addNetworkImpl (P := scenarioHost) d 64 "m"%string batch in
  In ("b"%string, cpuFunction) batch /\
  is_Some (functions_ d !! "b"%string) /\
  ld_ready r = [("m"%string, WrongBackend "a")] /\
  ~ (exists name, ld_ready r = [("m"%string, DuplicateFunction name)]).
Proof.
  cbv zeta. split; [right; left; reflexivity |].
  split; [vm_compute; eexists; reflexivity |].
  split; [vm_compute; reflexivity |].
  intros [name Heq]. vm_compute in Heq. discriminate.
Qed.

(** C8, counterexample: with one function of cost 1 loaded on a device of
    capacity 1000, the estimate 2^64 - 1 makes the unsigned sum wrap to 0, and
    [isMemoryAvailable] answers true although 1 + (2^64 - 1) exceeds 1000. *)
Lemma isMemoryAvailable_wraps :
  let d := ld_device (addNetworkImpl (P := exampleHost true false 1)
                        (exampleDevice 1000) 64 "m"%string
                        [("A"%string, cpuFunction)]) in
  let estimate := 2 ^ 64 - 1 in
  is_u64 estimate /\
  usedMemoryBytes_ d = 1 /\ maxMemoryBytes_ d = 1000 /\
  isMemoryAvailable d estimate = true /\
  ~ (isMemoryAvailable d estimate = true
     <-> usedMemoryBytes_ d + estimate <= maxMemoryBytes_ d).
Proof.
  assert (Hd : usedMemoryBytes_
                 (ld_device (addNetworkImpl (P := exampleHost true false 1)
                    (exampleDevice 1000) 64 "m"%string [("A"%string, cpuFunction)])) = 1
               /\ maxMemoryBytes_
                 (ld_device (addNetworkImpl (P := exampleHost true false 1)
                    (exampleDevice 1000) 64 "m"%string [("A"%string, cpuFunction)])) = 1000).
  { vm_compute. split; reflexivity. }
  destruct Hd as [Hu Hm]. cbv zeta.
  assert (Hav : isMemoryAvailable
                  (ld_device (addNetworkImpl (P := exampleHost true false 1)
                     (exampleDevice 1000) 64 "m"%string [("A"%string, cpuFunction)]))
                  (2 ^ 64 - 1) = true).
  { vm_compute. reflexivity. }
  split; [unfold is_u64, u64_modulus; lia |].
  split; [exact Hu |]. split; [exact Hm |]. split; [exact Hav |].
  intros [Himp _]. specialize (Himp Hav). rewrite Hu, Hm in Himp. lia.
Qed.

(** ** The theorems at concrete devices *)

Lemma evictNetworkImpl_unknown_name_witness :
  functions_ deviceWithA !! "B"%string = None /\
  let r := evictNetworkImpl (P := scenarioHost) deviceWithA 64 "B" in
  ev_evicted r = [("B"%string, EvictNotFound "B")] /\
  isFunctionNotFound (EvictNotFound "B") /\
  ev_device r = deviceWithA /\
  usedMemoryBytes_ (ev_device r) = usedMemoryBytes_ deviceWithA /\
  functions_ (ev_device r) = functions_ deviceWithA /\
  buffers_ (ev_device r) = buffers_ deviceWithA /\
  ev_heap r = 64.
Proof.
  split; [vm_compute; reflexivity |].
  apply (evictNetworkImpl_unknown_name (P := scenarioHost) deviceWithA 64 "B").
  vm_compute; reflexivity.
Defined.

Lemma load_evict_round_trip_witness :
  is_u64 (usedMemoryBytes_ (exampleDevice 1000)) /\
  let loaded := addNetworkImpl (P := scenarioHost) (exampleDevice 1000) 64
                  "m"%string [("A"%string, cpuFunction)] in
  reportsSuccess (P := scenarioHost) "m"%string loaded /\
  let evicted := evictNetworkImpl (P := scenarioHost)
                   (ld_device loaded) (ld_heap loaded) "A" in
  ev_evicted evicted = [("A"%string, success)] /\
  usedMemoryBytes_ (ev_device evicted) = usedMemoryBytes_ (exampleDevice 1000) /\
  getAvailableMemory (ev_device evicted) = getAvailableMemory (exampleDevice 1000) /\
  getMaximumMemory (ev_device evicted) = getMaximumMemory (exampleDevice 1000).
Proof.
  assert (Hu : is_u64 (usedMemoryBytes_ (exampleDevice 1000))).
  { unfold is_u64, u64_modulus. simpl. lia. }
  assert (Hok : reportsSuccess (P := scenarioHost) "m"%string
                  (addNetworkImpl (P := scenarioHost) (exampleDevice 1000) 64
                     "m"%string [("A"%string, cpuFunction)])).
  { vm_compute. left. reflexivity. }
  split; [exact Hu |]. cbv zeta. split; [exact Hok |].
  exact (load_evict_round_trip (P := scenarioHost) (exampleDevice 1000) 64
           "m"%string "A"%string cpuFunction Hu Hok).
Defined.

Lemma runFunctionImpl_unknown_name_witness :
  functions_ deviceWithA !! "B"%string = None /\
  runFunctionImpl deviceWithA 7 "B" exampleContext
  = RunReturned deviceWithA [(7, RunNotFound "B", exampleContext)] []
  /\ isFunctionNotFound (RunNotFound "B").
Proof.
  split; [vm_compute; reflexivity |].
  apply (runFunctionImpl_unknown_name deviceWithA 7 "B" exampleContext).
  vm_compute; reflexivity.
Defined.

Lemma runFunctionImpl_registered_witness :
  buffersConsistent deviceWithA /\
  exists func,
    functions_ deviceWithA !! "A"%string = Some func /\
    exists buffer executeErr context',
      buffers_ deviceWithA !! "A"%string = Some buffer /\
      execute func
        (setDeviceBindings exampleContext
           {| bindingsActivations := getActivationsBuffer buffer;
              bindingsWeights := getWeightsBuffer buffer |})
      = (executeErr, context') /\
      runFunctionImpl deviceWithA 7 "A" exampleContext
      = RunReturned deviceWithA [(7, executeErr, context')]
          [("A"%string, CallGetActivationsBuffer);
           ("A"%string, CallGetWeightsBuffer)].
Proof.
  assert (Hc : buffersConsistent deviceWithA).
  { apply (addNetworkImpl_consistent (P := scenarioHost)).
    apply CPUDeviceManager_new_consistent. }
  split; [exact Hc |].
  destruct (functions_ deviceWithA !! "A"%string) as [func |] eqn:Hf;
    [| vm_compute in Hf; discriminate].
  exists func. split; [reflexivity |].
  exact (runFunctionImpl_registered deviceWithA 7 "A" exampleContext func Hc Hf).
Defined.

Lemma addNetworkImpl_registered_name_witness :
  (exists name func, In (name, func) [("A"%string, cpuFunction)] /\
                     is_Some (functions_ deviceWithA !! name)) /\
  exists err pre name func post,
    addNetworkImpl (P := scenarioHost) deviceWithA 64 "m"%string
      [("A"%string, cpuFunction)]
    = @Build_LoadResult scenarioHost deviceWithA 64 [("m"%string, err)] false /\
    err <> success /\
    [("A"%string, cpuFunction)] = pre ++ (name, func) :: post /\
    is_Some (functions_ deviceWithA !! name) /\
    Forall (fun e : string * CompiledFunction =>
              functions_ deviceWithA !! e.1 = None) pre /\
    ((Forall (fun e : string * CompiledFunction =>
                getCompileBackendName e.2 = "CPU"%string) pre /\
      err = DuplicateFunction name)
     \/ (exists pre1 n f pre2,
           pre = pre1 ++ (n, f) :: pre2 /\
           Forall (fun e : string * CompiledFunction =>
                     getCompileBackendName e.2 = "CPU"%string) pre1 /\
           getCompileBackendName f <> "CPU"%string /\
           err = WrongBackend n)).
Proof.
  assert (Hdup : exists name func,
             In (name, func) [("A"%string, cpuFunction)] /\
             is_Some (functions_ deviceWithA !! name)).
  { exists "A"%string, cpuFunction. split; [left; reflexivity |].
    vm_compute. eexists; reflexivity. }
  split; [exact Hdup |].
  exact (addNetworkImpl_registered_name (P := scenarioHost) deviceWithA 64
           "m"%string [("A"%string, cpuFunction)] Hdup).
Defined.

Lemma isMemoryAvailable_spec_witness :
  is_u64 (usedMemoryBytes_ deviceWithA + 600) /\
  (isMemoryAvailable deviceWithA 600 = true
   <-> usedMemoryBytes_ deviceWithA + 600 <= maxMemoryBytes_ deviceWithA) /\
  checkFunctions (functions_ deviceWithA) [("B"%string, cpuFunction)] = None /\
  (isMemoryAvailable deviceWithA (functionCost_ (Platform := scenarioHost)) = false
   <-> addNetworkImpl (P := scenarioHost) deviceWithA 64 "m"%string
         [("B"%string, cpuFunction)]
       = @Build_LoadResult scenarioHost deviceWithA 64
           [("m"%string, OutOfDeviceMemory)] false).
Proof.
  assert (Hfit : is_u64 (usedMemoryBytes_ deviceWithA + 600)).
  { vm_compute. split; [discriminate | reflexivity]. }
  assert (Hcheck : checkFunctions (functions_ deviceWithA)
                     [("B"%string, cpuFunction)] = None).
  { vm_compute. reflexivity. }
  destruct (isMemoryAvailable_spec (P := scenarioHost) deviceWithA 600)
    as (_ & Hmath & Hload).
  split; [exact Hfit |]. split; [exact (Hmath Hfit) |]. split; [exact Hcheck |].
  exact (Hload 64 "m"%string [("B"%string, cpuFunction)] Hcheck).
Defined.

Lemma createCPUDeviceManager_maximum_witness :
  let config := {| configBackendName := "CPU"; deviceMemory := 1000 |} in
  0 <= 2048 < 2 ^ 32 /\ 2048 <> 0 /\
  getMaximumMemory (createCPUDeviceManager 2048 config) = 2048 * 1024 /\
  0 <= 0 < 2 ^ 32 /\
  getMaximumMemory (createCPUDeviceManager 0 config) = deviceMemory config.
Proof.
  intros config.
  assert (H1 : 0 <= 2048 < 2 ^ 32) by lia.
  assert (H0 : 0 <= 0 < 2 ^ 32) by lia.
  assert (Hnz : 2048 <> 0) by lia.
  split; [exact H1 |]. split; [exact Hnz |].
  split; [exact (proj1 (createCPUDeviceManager_maximum 2048 config H1) Hnz) |].
  split; [exact H0 |].
  exact (proj2 (createCPUDeviceManager_maximum 0 config H0) eq_refl).
Defined.

(** * Further properties of the operations *)

Section MoreDeviceFacts.
Context `{P : Platform}.

(** ** One iteration of the registration loop, spelled out *)

Lemma emplace_lookup_ne {V : Type} (k k' : string) (v : V) (m : gmap string V) :
  k <> k' -> emplace k v m !! k' = m !! k'.
Proof.
  intros Hne. unfold emplace. destruct (m !! k); [reflexivity |].
  by rewrite lookup_insert_ne.
Qed.

Lemma emplace_lookup_fresh {V : Type} (k : string) (v : V) (m : gmap string V) :
  m !! k = None -> emplace k v m !! k = Some v.
Proof. intros Hk. unfold emplace. rewrite Hk. apply lookup_insert_eq. Qed.

Lemma emplace_size_fresh {V : Type} (k : string) (v : V) (m : gmap string V) :
  m !! k = None -> size (emplace k v m) = S (size m).
Proof. intros Hk. unfold emplace. rewrite Hk. by apply map_size_insert_None. Qed.

(** The device, heap and callbacks one iteration leaves, in terms of the
    bundle it registers and the two regions it is given. *)
Lemma addFunction_unfold module (name : string) func st bundle heap1 a heap2 w heap3 :
  bundleForLoad (ls_heap st) module func = (bundle, heap1) ->
  alignedAlloc heap1 (activationsSize bundle) TensorAlignment = (a, heap2) ->
  alignedAlloc heap2 (mutableWeightSize bundle) TensorAlignment = (w, heap3) ->
  addFunction module (name, func) st
  = {| ls_device :=
         {| functions_ :=
              emplace name (setRuntimeBundle func bundle) (functions_ (ls_device st));
            buffers_ :=
              emplace name
                (CPUBuffer_new a (activationsSize bundle) w (mutableWeightSize bundle))
                (buffers_ (ls_device st));
            maxMemoryBytes_ := maxMemoryBytes_ (ls_device st);
            usedMemoryBytes_ := u64 (usedMemoryBytes_ (ls_device st) + functionCost_) |};
       ls_heap :=
         match buffers_ (ls_device st) !! name with
         | Some _ =>
             CPUBuffer_destroy heap3
               (CPUBuffer_new a (activationsSize bundle) w (mutableWeightSize bundle))
         | None => heap3
         end;
       ls_ready :=
         if (a =? 0) || (w =? 0)
         then ls_ready st ++ [(module, OutOfDeviceMemory)]
         else ls_ready st |}.
Proof.
  unfold bundleForLoad, addFunction. intros -> -> ->. reflexivity.
Qed.

(** Every iteration has such a description. *)
Lemma addFunction_cases module (name : string) func st :
  exists bundle heap1 a heap2 w heap3,
    bundleForLoad (ls_heap st) module func = (bundle, heap1) /\
    alignedAlloc heap1 (activationsSize bundle) TensorAlignment = (a, heap2) /\
    alignedAlloc heap2 (mutableWeightSize bundle) TensorAlignment = (w, heap3).
Proof.
  destruct (bundleForLoad (ls_heap st) module func) as [bundle heap1].
  destruct (alignedAlloc heap1 (activationsSize bundle) TensorAlignment)
    as [a heap2] eqn:Ha.
  destruct (alignedAlloc heap2 (mutableWeightSize bundle) TensorAlignment)
    as [w heap3] eqn:Hw.
  exists bundle, heap1, a, heap2, w, heap3. auto.
Qed.

Lemma bundleForLoad_with_constants heap module func :
  constants (getRuntimeBundle func) <> 0 ->
  bundleForLoad heap module func = (getRuntimeBundle func, heap).
Proof.
  intros Hc. unfold bundleForLoad.
  destruct (constants (getRuntimeBundle func) =? 0) eqn:Hz; [| reflexivity].
  apply Z.eqb_eq in Hz. contradiction.
Qed.

Lemma setRuntimeBundle_same func : setRuntimeBundle func (getRuntimeBundle func) = func.
Proof. destruct func. reflexivity. Qed.

(** ** Frame of the registration loop *)

Lemma addFunction_lookup_ne module (name : string) func st name' :
  name <> name' ->
  functions_ (ls_device (addFunction module (name, func) st)) !! name'
  = functions_ (ls_device st) !! name' /\
  buffers_ (ls_device (addFunction module (name, func) st)) !! name'
  = buffers_ (ls_device st) !! name'.
Proof.
  intros Hne.
  destruct (addFunction_cases module name func st)
    as (bundle & heap1 & a & heap2 & w & heap3 & Hb & Ha & Hw).
  rewrite (addFunction_unfold _ _ _ _ _ _ _ _ _ _ Hb Ha Hw). simpl.
  split; by apply emplace_lookup_ne.
Qed.

Lemma addFunctions_lookup_ne module functions st name' :
  name' ∉ map fst functions ->
  functions_ (ls_device (addFunctions module functions st)) !! name'
  = functions_ (ls_device st) !! name' /\
  buffers_ (ls_device (addFunctions module functions st)) !! name'
  = buffers_ (ls_device st) !! name'.
Proof.
  revert st. induction functions as [| [n f] rest IH]; intros st Hnot; [done |].
  change (addFunctions module ((n, f) :: rest) st)
    with (addFunctions module rest (addFunction module (n, f) st)).
  simpl in Hnot. apply not_elem_of_cons in Hnot as [Hne Hrest].
  destruct (IH (addFunction module (n, f) st) Hrest) as [-> ->].
  apply addFunction_lookup_ne. congruence.
Qed.

Lemma addFunctions_buffers module functions st name :
  is_Some (buffers_ (ls_device (addFunctions module functions st)) !! name)
  <-> (exists func, In (name, func) functions)
      \/ is_Some (buffers_ (ls_device st) !! name).
Proof.
  revert st. induction functions as [| [n f] rest IH]; intros st.
  - simpl. split; [auto |]. intros [[? []] | H]; exact H.
  - change (addFunctions module ((n, f) :: rest) st)
      with (addFunctions module rest (addFunction module (n, f) st)).
    rewrite IH, addFunction_buffers. simpl. split.
    + intros [[func Hin] | [<- | H]]; eauto.
    + intros [[func [Heq | Hin]] | H]; eauto.
      inversion Heq; subst. auto.
Qed.

(** ** What the registration loop stores *)

(** A fresh name of a duplicate-free batch ends up bound to the function the
    batch gave for it, with the bundle [bundleForLoad] made at its turn. *)
Lemma addFunctions_stores module functions st (name : string) func :
  NoDup (map fst functions) ->
  In (name, func) functions ->
  functions_ (ls_device st) !! name = None ->
  exists heap bundle heap1,
    bundleForLoad heap module func = (bundle, heap1) /\
    functions_ (ls_device (addFunctions module functions st)) !! name
    = Some (setRuntimeBundle func bundle).
Proof.
  revert st. induction functions as [| [n f] rest IH]; intros st Hnd Hin Hfresh.
  - destruct Hin.
  - change (addFunctions module ((n, f) :: rest) st)
      with (addFunctions module rest (addFunction module (n, f) st)).
    simpl in Hnd. apply NoDup_cons in Hnd as [Hn Hnd].
    destruct Hin as [Heq | Hin].
    + inversion Heq; subst n f.
      destruct (addFunction_cases module name func st)
        as (bundle & heap1 & a & heap2 & w & heap3 & Hb & Ha & Hw).
      exists (ls_heap st), bundle, heap1. split; [exact Hb |].
      destruct (addFunctions_lookup_ne module rest
                  (addFunction module (name, func) st) name Hn) as [-> _].
      rewrite (addFunction_unfold _ _ _ _ _ _ _ _ _ _ Hb Ha Hw). simpl.
      by apply emplace_lookup_fresh.
    + assert (Hne : n <> name).
      { intros ->. apply Hn. apply list_elem_of_fmap.
        exists (name, func). split; [reflexivity |]. by apply list_elem_of_In. }
      apply IH; [exact Hnd | exact Hin |].
      destruct (addFunction_lookup_ne module n f st name Hne) as [-> _].
      exact Hfresh.
Qed.

(** The loop adds one entry per function of a duplicate-free batch of fresh
    names. *)
Lemma addFunctions_size module functions st :
  NoDup (map fst functions) ->
  (forall name func, In (name, func) functions ->
                     functions_ (ls_device st) !! name = None) ->
  size (functions_ (ls_device (addFunctions module functions st)))
  = (size (functions_ (ls_device st)) + length functions)%nat.
Proof.
  revert st. induction functions as [| [n f] rest IH]; intros st Hnd Hfresh.
  - simpl. lia.
  - change (addFunctions module ((n, f) :: rest) st)
      with (addFunctions module rest (addFunction module (n, f) st)).
    simpl in Hnd. apply NoDup_cons in Hnd as [Hn Hnd].
    rewrite IH; [| exact Hnd |].
    + destruct (addFunction_cases module n f st)
        as (bundle & heap1 & a & heap2 & w & heap3 & Hb & Ha & Hw).
      rewrite (addFunction_unfold _ _ _ _ _ _ _ _ _ _ Hb Ha Hw). simpl.
      rewrite emplace_size_fresh; [lia |]. apply (Hfresh n f). by left.
    + intros name func Hin.
      assert (Hne : n <> name).
      { intros ->. apply Hn. apply list_elem_of_fmap.
        exists (name, func). split; [reflexivity |]. by apply list_elem_of_In. }
      destruct (addFunction_lookup_ne module n f st name Hne) as [-> _].
      apply (Hfresh name func). by right.
Qed.

(** The callbacks of the loop are out-of-memory reports, at most one per
    function. *)
Lemma addFunctions_ready_shape module functions st :
  exists n, (n <= length functions)%nat /\
    ls_ready (addFunctions module functions st)
    = ls_ready st ++ replicate n (module, OutOfDeviceMemory).
Proof.
  revert st. induction functions as [| entry rest IH]; intros st.
  - exists 0%nat. simpl. split; [lia | by rewrite app_nil_r].
  - change (addFunctions module (entry :: rest) st)
      with (addFunctions module rest (addFunction module entry st)).
    destruct (IH (addFunction module entry st)) as (n & Hn & ->).
    destruct (addFunction_ready module entry st) as [-> | ->].
    + exists n. simpl. split; [lia | reflexivity].
    + exists (S n). simpl. split; [lia |]. by rewrite <- app_assoc.
Qed.

(** With an allocator that never returns null the loop makes no callback. *)
Lemma addFunctions_ready_no_failure module functions st :
  (forall heap size alignment, (alignedAlloc heap size alignment).1 <> 0) ->
  ls_ready (addFunctions module functions st) = ls_ready st.
Proof.
  intros Halloc. revert st.
  induction functions as [| [n f] rest IH]; intros st; [reflexivity |].
  change (addFunctions module ((n, f) :: rest) st)
    with (addFunctions module rest (addFunction module (n, f) st)).
  rewrite IH.
  destruct (addFunction_cases module n f st)
    as (bundle & heap1 & a & heap2 & w & heap3 & Hb & Ha & Hw).
  rewrite (addFunction_unfold _ _ _ _ _ _ _ _ _ _ Hb Ha Hw). simpl.
  pose proof (Halloc heap1 (activationsSize bundle) TensorAlignment) as Hna.
  pose proof (Halloc heap2 (mutableWeightSize bundle) TensorAlignment) as Hnw.
  rewrite Ha in Hna. rewrite Hw in Hnw. simpl in Hna, Hnw.
  apply Z.eqb_neq in Hna, Hnw. by rewrite Hna, Hnw.
Qed.

(** Whatever its outcome, a load leaves either the device it started from or
    the device the loop made of it. *)
Lemma addNetworkImpl_device_cases d heap module functions :
  (ld_device (addNetworkImpl d heap module functions) = d /\
   ld_heap (addNetworkImpl d heap module functions) = heap /\
   (checkFunctions (functions_ d) functions <> None \/
    maxMemoryBytes_ d < u64 (usedMemoryBytes_ d + functionCost_)))
  \/ (checkFunctions (functions_ d) functions = None /\
      u64 (usedMemoryBytes_ d + functionCost_) <= maxMemoryBytes_ d /\
      ld_device (addNetworkImpl d heap module functions)
      = ls_device (addFunctions module functions
                     {| ls_device := d; ls_heap := heap; ls_ready := [] |}) /\
      ld_heap (addNetworkImpl d heap module functions)
      = ls_heap (addFunctions module functions
                   {| ls_device := d; ls_heap := heap; ls_ready := [] |})).
Proof.
  unfold addNetworkImpl.
  destruct (checkFunctions _ _) as [err |] eqn:Hcheck.
  { left. simpl. repeat split; auto. }
  destruct (_ >? _) eqn:Hcap.
  { left. simpl. repeat split; auto. right. lia. }
  right. split; [reflexivity |]. split; [lia |].
  destruct (negb NDEBUG && _); simpl; auto.
Qed.

Lemma addFunctions_stores_both module functions st (name : string) func :
  NoDup (map fst functions) ->
  In (name, func) functions ->
  functions_ (ls_device st) !! name = None ->
  buffers_ (ls_device st) !! name = None ->
  exists heap bundle heap1 a w,
    bundleForLoad heap module func = (bundle, heap1) /\
    functions_ (ls_device (addFunctions module functions st)) !! name
    = Some (setRuntimeBundle func bundle) /\
    buffers_ (ls_device (addFunctions module functions st)) !! name
    = Some (CPUBuffer_new a (activationsSize bundle) w (mutableWeightSize bundle)).
Proof.
  revert st. induction functions as [| [n f] rest IH]; intros st Hnd Hin Hf Hb.
  - destruct Hin.
  - change (addFunctions module ((n, f) :: rest) st)
      with (addFunctions module rest (addFunction module (n, f) st)).
    simpl in Hnd. apply NoDup_cons in Hnd as [Hn Hnd].
    destruct Hin as [Heq | Hin].
    + inversion Heq; subst n f.
      destruct (addFunction_cases module name func st)
        as (bundle & heap1 & a & heap2 & w & heap3 & Hbl & Ha & Hw).
      exists (ls_heap st), bundle, heap1, a, w. split; [exact Hbl |].
      destruct (addFunctions_lookup_ne module rest
                  (addFunction module (name, func) st) name Hn) as [-> ->].
      rewrite (addFunction_unfold _ _ _ _ _ _ _ _ _ _ Hbl Ha Hw). simpl.
      split; by apply emplace_lookup_fresh.
    + assert (Hne : n <> name).
      { intros ->. apply Hn. apply list_elem_of_fmap.
        exists (name, func). split; [reflexivity |]. by apply list_elem_of_In. }
      destruct (addFunction_lookup_ne module n f st name Hne) as [Hf' Hb'].
      apply IH; [exact Hnd | exact Hin | by rewrite Hf' | by rewrite Hb'].
Qed.

Lemma checkFunctions_none_cpu registered functions (name : string) func :
  checkFunctions registered functions = None ->
  In (name, func) functions -> getCompileBackendName func = "CPU"%string.
Proof.
  induction functions as [| [n f] rest IH]; simpl; [tauto |].
  intros Hc Hin. case_bool_decide; [discriminate |].
  destruct (String.eqb (getCompileBackendName f) "CPU") eqn:Hb; [| discriminate].
  simpl in Hc. destruct Hin as [Heq | Hin]; [| auto].
  inversion Heq; subst. by apply String.eqb_eq.
Qed.

(** ** Loading: outcomes *)

Lemma checkFunctions_none_intro registered functions :
  (forall name func, In (name, func) functions ->
     registered !! name = None /\ getCompileBackendName func = "CPU"%string) ->
  checkFunctions registered functions = None.
Proof.
  induction functions as [| [n f] rest IH]; intros Hall; [reflexivity |].
  simpl. destruct (Hall n f) as [Hn Hb]; [by left |].
  rewrite bool_decide_eq_false_2; [| rewrite Hn; by intros [? ?]].
  apply String.eqb_eq in Hb. rewrite Hb. simpl.
  apply IH. intros name func Hin. apply Hall. by right.
Qed.

Lemma addFunctions_usedMemoryBytes_u64 module functions st :
  is_u64 (usedMemoryBytes_ (ls_device st)) ->
  usedMemoryBytes_ (ls_device (addFunctions module functions st))
  = u64 (usedMemoryBytes_ (ls_device st)
         + Z.of_nat (length functions) * functionCost_).
Proof.
  intros Hu. rewrite addFunctions_usedMemoryBytes.
  destruct functions as [| e rest]; [| reflexivity].
  simpl. rewrite Z.add_0_r. symmetry. by apply u64_id.
Qed.

(** X5: what makes a load report success, in terms of what it is given: no
    function of the batch is registered yet and each is compiled for CPU;
    the counter plus one flat cost, as a 64-bit sum, does not exceed the
    capacity; and either assertions are compiled out or the counter after
    charging the flat cost once per function of the batch, modulo 2^64, is
    within the capacity.  The load reports success exactly then. *)
Theorem addNetworkImpl_reports_success_iff d heap module functions :
  is_u64 (usedMemoryBytes_ d) ->
  (reportsSuccess module (addNetworkImpl d heap module functions)
   <-> (forall name func, In (name, func) functions ->
          functions_ d !! name = None /\
          getCompileBackendName func = "CPU"%string) /\
       u64 (usedMemoryBytes_ d + functionCost_) <= maxMemoryBytes_ d /\
       (NDEBUG = true \/
        u64 (usedMemoryBytes_ d + Z.of_nat (length functions) * functionCost_)
        <= maxMemoryBytes_ d)).
Proof.
  intros Hu.
  set (st0 := {| ls_device := d; ls_heap := heap; ls_ready := [] |}).
  assert (Hused : usedMemoryBytes_ (ls_device (addFunctions module functions st0))
                  = u64 (usedMemoryBytes_ d
                         + Z.of_nat (length functions) * functionCost_)).
  { by apply (addFunctions_usedMemoryBytes_u64 module functions st0). }
  assert (Hmax : maxMemoryBytes_ (ls_device (addFunctions module functions st0))
                 = maxMemoryBytes_ d).
  { apply (addFunctions_maxMemoryBytes module functions st0). }
  split.
  - intros Hok.
    destruct (addNetworkImpl_success_inv _ _ _ _ Hok) as (Hcheck & Hcap & _).
    split; [| split; [exact Hcap |]].
    + intros name func Hin. split.
      * eapply checkFunctions_none_unregistered; eauto.
      * eapply checkFunctions_none_cpu; eauto.
    + revert Hok. unfold reportsSuccess, addNetworkImpl. rewrite Hcheck.
      destruct (_ >? _); [simpl; intros [Heq | []]; discriminate |].
      fold st0. rewrite Hused, Hmax.
      destruct NDEBUG; [auto |]. simpl.
      destruct (u64 (usedMemoryBytes_ d
                     + Z.of_nat (length functions) * functionCost_)
                <=? maxMemoryBytes_ d) eqn:Hle; simpl.
      * intros _. right. by apply Z.leb_le.
      * intros Hin. exfalso. revert Hin. apply addFunctions_ready. simpl. tauto.
  - intros (Hall & Hcap & Hassert).
    unfold reportsSuccess, addNetworkImpl.
    rewrite (checkFunctions_none_intro _ _ Hall).
    replace (u64 (usedMemoryBytes_ d + functionCost_) >? maxMemoryBytes_ d)
      with false by (symmetry; rewrite Z.gtb_ltb; apply Z.ltb_ge; lia).
    fold st0. rewrite Hused, Hmax.
    assert (Hcond : negb NDEBUG
                    && negb (u64 (usedMemoryBytes_ d
                                  + Z.of_nat (length functions) * functionCost_)
                             <=? maxMemoryBytes_ d) = false).
    { destruct Hassert as [-> | Hle]; [reflexivity |].
      apply Z.leb_le in Hle. rewrite Hle. by rewrite andb_false_r. }
    rewrite Hcond. simpl. apply in_app_iff. right. left. reflexivity.
Qed.

(** X6: whatever the batch and the allocator, the callbacks of a load are
    some out-of-memory reports, at most one per function of the batch,
    followed by exactly one final callback, or by none when the assertion
    aborted the call. *)
Theorem addNetworkImpl_callbacks_shape d heap module functions :
  exists n e, (n <= length functions)%nat /\
    ld_ready (addNetworkImpl d heap module functions)
    = replicate n (module, OutOfDeviceMemory)
      ++ (if ld_assert_failed (addNetworkImpl d heap module functions)
          then [] else [(module, e)]).
Proof.
  unfold addNetworkImpl.
  destruct (checkFunctions _ _) as [err |].
  { exists 0%nat, err. simpl. split; [lia | reflexivity]. }
  destruct (_ >? _).
  { exists 0%nat, OutOfDeviceMemory. simpl. split; [lia | reflexivity]. }
  destruct (addFunctions_ready_shape module functions
              {| ls_device := d; ls_heap := heap; ls_ready := [] |})
    as (n & Hn & Hshape).
  exists n, success. split; [exact Hn |].
  destruct (negb NDEBUG && _); simpl; rewrite Hshape; simpl;
    [by rewrite app_nil_r | reflexivity].
Qed.

(** X7: when the allocator never returns null, a load that is not aborted by
    the assertion invokes the callback exactly once. *)
Theorem addNetworkImpl_once_without_allocation_failure d heap module functions :
  (forall heap size alignment, (alignedAlloc heap size alignment).1 <> 0) ->
  ld_assert_failed (addNetworkImpl d heap module functions) = false ->
  exists e, ld_ready (addNetworkImpl d heap module functions) = [(module, e)].
Proof.
  intros Halloc. unfold addNetworkImpl.
  destruct (checkFunctions _ _) as [err |]; [eauto |].
  destruct (_ >? _); [eauto |].
  destruct (negb NDEBUG && _); simpl; [discriminate |].
  intros _. exists success.
  by rewrite (addFunctions_ready_no_failure module functions _ Halloc).
Qed.

(** X8: a batch of unregistered names that holds a function not compiled for
    CPU is refused with the wrong-backend failure of the first such function
    in iteration order; the callback is made once and device and heap are
    left as they were. *)
Theorem addNetworkImpl_wrong_backend d heap module functions :
  (forall name func, In (name, func) functions -> functions_ d !! name = None) ->
  (exists name func, In (name, func) functions /\
                     getCompileBackendName func <> "CPU"%string) ->
  exists pre n f post,
    functions = pre ++ (n, f) :: post /\
    Forall (fun e : string * CompiledFunction =>
              getCompileBackendName e.2 = "CPU"%string) pre /\
    getCompileBackendName f <> "CPU"%string /\
    addNetworkImpl d heap module functions
    = {| ld_device := d; ld_heap := heap;
         ld_ready := [(module, WrongBackend n)]; ld_assert_failed := false |}.
Proof.
  intros Hfresh Hbad.
  assert (Hcheck : exists pre n f post,
             functions = pre ++ (n, f) :: post /\
             Forall (fun e : string * CompiledFunction =>
                       getCompileBackendName e.2 = "CPU"%string) pre /\
             getCompileBackendName f <> "CPU"%string /\
             checkFunctions (functions_ d) functions = Some (WrongBackend n)).
  { clear heap module. induction functions as [| [n f] rest IH].
    - destruct Hbad as (? & ? & [] & _).
    - simpl. rewrite bool_decide_eq_false_2;
        [| rewrite (Hfresh n f) by (by left); by intros [? ?]].
      destruct (String.eqb (getCompileBackendName f) "CPU") eqn:Hb; simpl.
      + apply String.eqb_eq in Hb.
        destruct IH as (pre & n' & f' & post & -> & Hpre & Hne & Hc).
        * intros name func Hin. apply (Hfresh name func). by right.
        * destruct Hbad as (name & func & [Heq | Hin] & Hne); [| eauto].
          inversion Heq; subst. contradiction.
        * exists ((n, f) :: pre), n', f', post. repeat split; auto.
      + apply String.eqb_neq in Hb. exists [], n, f, rest. repeat split; auto. }
  destruct Hcheck as (pre & n & f & post & Heq & Hpre & Hne & Hc).
  exists pre, n, f, post. unfold addNetworkImpl. rewrite Hc. auto.
Qed.

(** ** Loading: what a successful load leaves *)

(** X9: after a load that reports success every function of the batch is
    registered and has a buffer, the capacity is what it was, and the
    counter has been charged the flat cost once per function of the batch,
    modulo 2^64. *)
Theorem addNetworkImpl_registers_batch d heap module functions :
  is_u64 (usedMemoryBytes_ d) ->
  reportsSuccess module (addNetworkImpl d heap module functions) ->
  (forall name func, In (name, func) functions ->
     is_Some (functions_ (ld_device (addNetworkImpl d heap module functions)) !! name) /\
     is_Some (buffers_ (ld_device (addNetworkImpl d heap module functions)) !! name)) /\
  usedMemoryBytes_ (ld_device (addNetworkImpl d heap module functions))
  = u64 (usedMemoryBytes_ d + Z.of_nat (length functions) * functionCost_) /\
  maxMemoryBytes_ (ld_device (addNetworkImpl d heap module functions))
  = maxMemoryBytes_ d.
Proof.
  intros Hu Hok.
  destruct (addNetworkImpl_success_inv _ _ _ _ Hok) as (_ & _ & -> & _).
  split; [| split].
  - intros name func Hin. split.
    + apply addFunctions_functions. left. eauto.
    + apply addFunctions_buffers. left. eauto.
  - rewrite addFunctions_usedMemoryBytes. simpl.
    destruct functions as [| e rest]; [| reflexivity].
    simpl. rewrite Z.add_0_r. symmetry. by apply u64_id.
  - apply addFunctions_maxMemoryBytes.
Qed.

(** X10: a load, whatever its outcome, leaves the registration and the
    buffer of every name outside its batch as they were, and never changes
    the capacity. *)
Theorem addNetworkImpl_other_names d heap module functions (name : string) :
  name ∉ map fst functions ->
  functions_ (ld_device (addNetworkImpl d heap module functions)) !! name
  = functions_ d !! name /\
  buffers_ (ld_device (addNetworkImpl d heap module functions)) !! name
  = buffers_ d !! name /\
  maxMemoryBytes_ (ld_device (addNetworkImpl d heap module functions))
  = maxMemoryBytes_ d.
Proof.
  intros Hnot.
  destruct (addNetworkImpl_device_cases d heap module functions)
    as [(-> & _ & _) | (_ & _ & -> & _)]; [auto |].
  destruct (addFunctions_lookup_ne module functions
              {| ls_device := d; ls_heap := heap; ls_ready := [] |} name Hnot)
    as [-> ->].
  rewrite addFunctions_maxMemoryBytes. auto.
Qed.

(** X11: after a load that reports success, on a device whose maps are in
    step, each function of the batch is registered under its name with the
    [execute] it came with and the CPU backend; a function that already had
    its constants is registered unchanged; and its buffer has the activation
    and weight sizes of the registered bundle. *)
Theorem addNetworkImpl_stores_function d heap module functions (name : string) func :
  buffersConsistent d ->
  NoDup (map fst functions) ->
  reportsSuccess module (addNetworkImpl d heap module functions) ->
  In (name, func) functions ->
  exists func' buffer,
    functions_ (ld_device (addNetworkImpl d heap module functions)) !! name
    = Some func' /\
    execute func' = execute func /\
    getCompileBackendName func' = "CPU"%string /\
    (constants (getRuntimeBundle func) <> 0 -> func' = func) /\
    buffers_ (ld_device (addNetworkImpl d heap module functions)) !! name
    = Some buffer /\
    getActivationsSize buffer = activationsSize (getRuntimeBundle func') /\
    getWeightsSize buffer = mutableWeightSize (getRuntimeBundle func').
Proof.
  intros Hc Hnd Hok Hin.
  destruct (addNetworkImpl_success_inv _ _ _ _ Hok) as (Hcheck & _ & -> & _).
  pose proof (checkFunctions_none_unregistered _ _ _ _ Hcheck Hin) as Hfresh.
  assert (Hbfresh : buffers_ d !! name = None).
  { destruct (buffers_ d !! name) eqn:Hb; [| reflexivity].
    destruct (proj2 (Hc name)) as [? Hf]; [eauto |]. congruence. }
  destruct (addFunctions_stores_both module functions
              {| ls_device := d; ls_heap := heap; ls_ready := [] |}
              name func Hnd Hin Hfresh Hbfresh)
    as (heap' & bundle & heap1 & a & w & Hbl & -> & ->).
  exists (setRuntimeBundle func bundle),
         (CPUBuffer_new a (activationsSize bundle) w (mutableWeightSize bundle)).
  repeat split; auto.
  - simpl. eapply checkFunctions_none_cpu; eauto.
  - intros Hconst. rewrite (bundleForLoad_with_constants _ _ _ Hconst) in Hbl.
    inversion Hbl; subst. apply setRuntimeBundle_same.
Qed.

(** X12: once a load has reported success, loading any function again under
    one of its names is refused with [DuplicateFunction] for that name, and
    leaves device and heap as the first load left them. *)
Theorem addNetworkImpl_twice_duplicate d heap module functions
    (name : string) func module' func' :
  reportsSuccess module (addNetworkImpl d heap module functions) ->
  In (name, func) functions ->
  addNetworkImpl (ld_device (addNetworkImpl d heap module functions))
    (ld_heap (addNetworkImpl d heap module functions)) module' [(name, func')]
  = {| ld_device := ld_device (addNetworkImpl d heap module functions);
       ld_heap := ld_heap (addNetworkImpl d heap module functions);
       ld_ready := [(module', DuplicateFunction name)];
       ld_assert_failed := false |}.
Proof.
  intros Hok Hin.
  assert (Hreg : is_Some (functions_
                   (ld_device (addNetworkImpl d heap module functions)) !! name)).
  { destruct (addNetworkImpl_success_inv _ _ _ _ Hok) as (_ & _ & -> & _).
    apply addFunctions_functions. left. eauto. }
  unfold addNetworkImpl at 1. simpl.
  by rewrite bool_decide_eq_true_2.
Qed.

(** ** Evicting *)

(** X13: evicting a registered function invokes the callback once, with
    success; the name is gone from the registry and from the buffer map,
    every other name keeps its function and its buffer, the counter drops by
    the flat cost modulo 2^64, the capacity stays, and the two regions of
    the function's buffer are freed. *)
Theorem evictNetworkImpl_removes d heap (functionName : string) func :
  functions_ d !! functionName = Some func ->
  let r := evictNetworkImpl d heap functionName in
  ev_evicted r = [(functionName, success)] /\
  functions_ (ev_device r) !! functionName = None /\
  buffers_ (ev_device r) !! functionName = None /\
  (forall name, name <> functionName ->
     functions_ (ev_device r) !! name = functions_ d !! name /\
     buffers_ (ev_device r) !! name = buffers_ d !! name) /\
  usedMemoryBytes_ (ev_device r) = u64 (usedMemoryBytes_ d - functionCost_) /\
  maxMemoryBytes_ (ev_device r) = maxMemoryBytes_ d /\
  ev_heap r = match buffers_ d !! functionName with
              | Some b => alignedFree (alignedFree heap (activationsBuffer_ b))
                            (weightsBuffer_ b)
              | None => heap
              end.
Proof.
  intros Hf r. subst r. unfold evictNetworkImpl. rewrite Hf. simpl.
  rewrite !lookup_delete_eq. repeat split; auto.
  - by rewrite lookup_delete_ne.
  - by rewrite lookup_delete_ne.
Qed.

(** X14: evicting the same name a second time is always refused with the
    not-found failure and changes nothing, whether or not the first eviction
    found the function. *)
Theorem evictNetworkImpl_twice d heap (functionName : string) :
  let first := evictNetworkImpl d heap functionName in
  let second := evictNetworkImpl (ev_device first) (ev_heap first) functionName in
  ev_evicted second = [(functionName, EvictNotFound functionName)] /\
  ev_device second = ev_device first /\
  ev_heap second = ev_heap first.
Proof.
  intros first second.
  assert (Hgone : functions_ (ev_device first) !! functionName = None).
  { subst first. unfold evictNetworkImpl.
    destruct (functions_ d !! functionName) eqn:Hf; simpl;
      [apply lookup_delete_eq | exact Hf]. }
  subst second. unfold evictNetworkImpl at 1 2 3. rewrite Hgone. auto.
Qed.

(** X15: after an eviction of a name, a run of that name is answered with
    the not-found failure and the caller's context, and leaves the device as
    the eviction left it. *)
Theorem evictNetworkImpl_then_run d heap (functionName : string) id context :
  let evicted := evictNetworkImpl d heap functionName in
  runFunctionImpl (ev_device evicted) id functionName context
  = RunReturned (ev_device evicted)
      [(id, RunNotFound functionName, context)] [].
Proof.
  intros evicted.
  assert (Hgone : functions_ (ev_device evicted) !! functionName = None).
  { subst evicted. unfold evictNetworkImpl.
    destruct (functions_ d !! functionName) eqn:Hf; simpl;
      [apply lookup_delete_eq | exact Hf]. }
  unfold runFunctionImpl. by rewrite Hgone.
Qed.

(** X16: evicting a registered function from a device whose counter is
    within its capacity makes room for one more function:
    [isMemoryAvailable] holds for the flat cost afterwards. *)
Theorem evictNetworkImpl_makes_room d heap (functionName : string) :
  is_u64 (usedMemoryBytes_ d) ->
  usedMemoryBytes_ d <= maxMemoryBytes_ d ->
  is_Some (functions_ d !! functionName) ->
  isMemoryAvailable (ev_device (evictNetworkImpl d heap functionName))
    functionCost_ = true.
Proof.
  intros Hu Hle [func Hf]. unfold evictNetworkImpl. rewrite Hf.
  unfold isMemoryAvailable. simpl. rewrite Z.geb_leb. apply Z.leb_le.
  unfold u64. rewrite Zplus_mod_idemp_l.
  replace (usedMemoryBytes_ d - functionCost_ + functionCost_)
    with (usedMemoryBytes_ d) by lia.
  rewrite Z.mod_small; [exact Hle | exact Hu].
Qed.

(** ** Loading, then running or evicting *)

(** X17: a function of a batch whose load reported success can be run on the
    device the load left: the run calls [execute] of that function on the
    caller's context with the regions of its buffer bound, invokes the
    result callback once with what [execute] returned, and leaves the device
    as it was. *)
Theorem addNetworkImpl_then_run d heap module functions (name : string) func
    id context :
  NoDup (map fst functions) ->
  reportsSuccess module (addNetworkImpl d heap module functions) ->
  In (name, func) functions ->
  let d' := ld_device (addNetworkImpl d heap module functions) in
  exists buffer,
    buffers_ d' !! name = Some buffer /\
    let context1 :=
      setDeviceBindings context
        {| bindingsActivations := getActivationsBuffer buffer;
           bindingsWeights := getWeightsBuffer buffer |} in
    runFunctionImpl d' id name context
    = RunReturned d' [(id, (execute func context1).1, (execute func context1).2)]
        [(name, CallGetActivationsBuffer); (name, CallGetWeightsBuffer)].
Proof.
  intros Hnd Hok Hin d'. subst d'.
  destruct (addNetworkImpl_success_inv _ _ _ _ Hok) as (Hcheck & _ & -> & _).
  pose proof (checkFunctions_none_unregistered _ _ _ _ Hcheck Hin) as Hfresh.
  set (st0 := {| ls_device := d; ls_heap := heap; ls_ready := [] |}).
  destruct (addFunctions_stores module functions st0 name func Hnd Hin Hfresh)
    as (heap' & bundle & heap1 & _ & Hf).
  destruct (proj2 (addFunctions_buffers module functions st0 name)) as [buffer Hb];
    [left; eauto |].
  exists buffer. split; [exact Hb |]. cbv zeta.
  unfold runFunctionImpl. rewrite Hf, Hb. simpl.
  by destruct (execute func _).
Qed.

(** X18: on a device whose maps are in step, a single-function load that
    reports success followed by the eviction of that function frees exactly
    the two regions the load allocated, in the order activations, weights. *)
Theorem load_evict_frees_regions d heap module (name : string) func :
  buffersConsistent d ->
  let loaded := addNetworkImpl d heap module [(name, func)] in
  reportsSuccess module loaded ->
  exists bundle heap1 a heap2 w heap3,
    bundleForLoad heap module func = (bundle, heap1) /\
    alignedAlloc heap1 (activationsSize bundle) TensorAlignment = (a, heap2) /\
    alignedAlloc heap2 (mutableWeightSize bundle) TensorAlignment = (w, heap3) /\
    ld_heap loaded = heap3 /\
    ev_heap (evictNetworkImpl (ld_device loaded) (ld_heap loaded) name)
    = alignedFree (alignedFree heap3 a) w.
Proof.
  intros Hc loaded Hok. subst loaded.
  destruct (addNetworkImpl_success_inv _ _ _ _ Hok) as (Hcheck & _ & -> & ->).
  assert (Hfresh : functions_ d !! name = None).
  { eapply checkFunctions_none_unregistered; [exact Hcheck | by left]. }
  assert (Hbfresh : buffers_ d !! name = None).
  { destruct (buffers_ d !! name) eqn:Hb; [| reflexivity].
    destruct (proj2 (Hc name)) as [? Hf]; [eauto |]. congruence. }
  set (st0 := {| ls_device := d; ls_heap := heap; ls_ready := [] |}).
  change (addFunctions module [(name, func)] st0)
    with (addFunction module (name, func) st0).
  destruct (addFunction_cases module name func st0)
    as (bundle & heap1 & a & heap2 & w & heap3 & Hbl & Ha & Hw).
  exists bundle, heap1, a, heap2, w, heap3.
  rewrite (addFunction_unfold _ _ _ _ _ _ _ _ _ _ Hbl Ha Hw). simpl.
  rewrite Hbfresh. repeat split; auto.
  unfold evictNetworkImpl. simpl.
  rewrite (emplace_lookup_fresh _ _ _ Hfresh), (emplace_lookup_fresh _ _ _ Hbfresh).
  reflexivity.
Qed.

(** ** Histories *)

Lemma runFunctionImpl_returned d id function context d' results bufferCalls :
  runFunctionImpl d id function context = RunReturned d' results bufferCalls ->
  d' = d /\ exists e context', results = [(id, e, context')].
Proof.
  unfold runFunctionImpl.
  destruct (functions_ d !! function) as [func |].
  - destruct (buffers_ d !! function) as [buffer |]; [| discriminate].
    destruct (execute func _) as [e context']. intros [= <- <- _]. eauto.
  - intros [= <- <- _]. eauto.
Qed.

Lemma deviceStep_buffersConsistent s1 s2 :
  deviceStep s1 s2 -> buffersConsistent s1.1 -> buffersConsistent s2.1.
Proof.
  intros Hstep. destruct Hstep as [d heap module functions _ | d heap name
    | d heap id function context d' results calls Hrun]; simpl; intros Hc.
  - by apply addNetworkImpl_consistent.
  - by apply evictNetworkImpl_consistent.
  - apply runFunctionImpl_returned in Hrun as [-> _]. exact Hc.
Qed.

Lemma size_registered_pos (m : gmap string CompiledFunction) name :
  is_Some (m !! name) -> (1 <= size m)%nat.
Proof.
  intros [f Hf]. destruct (size m) eqn:Hs; [| lia].
  apply map_size_empty_inv in Hs. subst m. by rewrite lookup_empty in Hf.
Qed.

Lemma deviceStep_ledgerExact s1 s2 :
  deviceStep s1 s2 -> ledgerExact s1.1 -> ledgerExact s2.1.
Proof.
  intros Hstep. destruct Hstep as [d heap module functions Hnd | d heap name
    | d heap id function context d' results calls Hrun]; simpl; intros Hl.
  - destruct (addNetworkImpl_device_cases d heap module functions)
      as [(-> & _ & _) | (Hcheck & _ & -> & _)]; [exact Hl |].
    unfold ledgerExact.
    rewrite addFunctions_size; [| exact Hnd |]; simpl.
    + rewrite addFunctions_usedMemoryBytes. simpl.
      destruct functions as [| e rest].
      * simpl. rewrite Nat.add_0_r. exact Hl.
      * rewrite Hl, u64_add_idemp. f_equal. lia.
    + intros name func Hin. eapply checkFunctions_none_unregistered; eauto.
  - unfold evictNetworkImpl.
    destruct (functions_ d !! name) eqn:Hf; simpl; [| exact Hl].
    unfold ledgerExact. simpl.
    rewrite map_size_delete_Some by eauto.
    assert (Hpos : (1 <= size (functions_ d))%nat)
      by (eapply size_registered_pos; eauto).
    rewrite Hl. unfold u64. rewrite Zminus_mod_idemp_l. f_equal.
    rewrite Nat2Z.inj_pred by lia. unfold Z.pred. ring.
  - apply runFunctionImpl_returned in Hrun as [-> _]. exact Hl.
Qed.

Lemma deviceStep_maxMemoryBytes s1 s2 :
  deviceStep s1 s2 -> maxMemoryBytes_ s2.1 = maxMemoryBytes_ s1.1.
Proof.
  intros Hstep. destruct Hstep as [d heap module functions _ | d heap name
    | d heap id function context d' results calls Hrun]; simpl.
  - destruct (addNetworkImpl_device_cases d heap module functions)
      as [(-> & _ & _) | (_ & _ & -> & _)]; [reflexivity |].
    apply addFunctions_maxMemoryBytes.
  - unfold evictNetworkImpl. by destruct (functions_ d !! name).
  - by apply runFunctionImpl_returned in Hrun as [-> _].
Qed.

(** X1: over any history of loads (of duplicate-free batches), evictions and
    runs, the ledger stays exact: started from a device whose counter is the
    flat cost times the number of registered functions modulo 2^64 (a new
    device is one), every device reached has that property again, failed
    allocations included. *)
Theorem deviceSteps_ledgerExact s0 s :
  ledgerExact s0.1 -> deviceSteps s0 s -> ledgerExact s.1.
Proof.
  intros H0 Hsteps. induction Hsteps as [| s1 s2 s3 _ IH Hstep]; [exact H0 |].
  eapply deviceStep_ledgerExact; eauto.
Qed.

(** X2: over any history of loads, evictions and runs, the registry and the
    buffer map keep the same keys: started from a device where every
    registered function has a buffer and every buffer a registered function,
    every device reached is like that. *)
Theorem deviceSteps_buffersConsistent s0 s :
  buffersConsistent s0.1 -> deviceSteps s0 s -> buffersConsistent s.1.
Proof.
  intros H0 Hsteps. induction Hsteps as [| s1 s2 s3 _ IH Hstep]; [exact H0 |].
  eapply deviceStep_buffersConsistent; eauto.
Qed.

(** X3: no load, eviction or run ever changes the capacity of the device. *)
Theorem deviceSteps_maxMemoryBytes s0 s :
  deviceSteps s0 s -> maxMemoryBytes_ s.1 = maxMemoryBytes_ s0.1.
Proof.
  intros Hsteps. induction Hsteps as [| s1 s2 s3 _ IH Hstep]; [reflexivity |].
  rewrite (deviceStep_maxMemoryBytes _ _ Hstep). exact IH.
Qed.

(** X4: on every device reached by loads, evictions and runs from a device
    whose maps are in step, a run of any name returns: it invokes the result
    callback exactly once, under the run identifier it was given, and leaves
    the device unchanged. *)
Theorem runFunctionImpl_after_history s0 s id function context :
  buffersConsistent s0.1 -> deviceSteps s0 s ->
  exists e context' bufferCalls,
    runFunctionImpl s.1 id function context
    = RunReturned s.1 [(id, e, context')] bufferCalls.
Proof.
  intros H0 Hsteps.
  assert (Hc : buffersConsistent s.1).
  { induction Hsteps as [| s1 s2 s3 _ IH Hstep]; [exact H0 |].
    eapply deviceStep_buffersConsistent; eauto. }
  unfold runFunctionImpl.
  destruct (functions_ s.1 !! function) as [func |] eqn:Hf; [| eauto].
  destruct (proj1 (Hc function)) as [buffer ->]; [eauto |].
  destruct (execute func _) as [e context']. eauto.
Qed.

(** ** Peer addresses *)

Lemma getPlaceholderByName_name bindings name PH :
  getPlaceholderByName bindings name = Some PH -> getName PH = name.
Proof.
  unfold getPlaceholderByName. intros Hfind.
  apply find_some in Hfind as [_ Heq]. by apply String.eqb_eq.
Qed.

Lemma to_int64_small z : 0 <= z < 2 ^ 63 -> to_int64 z = z.
Proof.
  intros Hz. unfold to_int64.
  rewrite u64_id by (unfold is_u64, u64_modulus; lia).
  destruct (z <? 2 ^ 63) eqn:Hlt; [reflexivity |].
  apply Z.ltb_ge in Hlt. lia.
Qed.

(** X19: the resolver returns an error exactly when [recv_func] is not
    registered, and the error is then the remote-address failure
    ([RUNTIME_ERROR]); no other condition makes it return an error. *)
Theorem getRemotePeerToPeerAddress_error_iff d channelId bindings e :
  peer_value (getRemotePeerToPeerAddress d channelId bindings) = PeerError e
  <-> functions_ d !! "recv_func"%string = None /\ e = RemoteAddressUnavailable.
Proof.
  split; [apply getRemotePeerToPeerAddress_error |].
  intros [Hnone ->]. unfold getRemotePeerToPeerAddress. by rewrite Hnone.
Qed.

(** X20: with [recv_func] registered with its buffer, a placeholder named
    [recv_input] bound, and [recv_input] in the symbol table of the function,
    the resolver prints nothing and returns the weights region base plus the
    offset of the symbol, as a signed 64-bit value: exactly base + offset
    when that sum is below 2^63.  The channel identifier plays no part. *)
Theorem getRemotePeerToPeerAddress_address d channelId bindings func buffer PH info :
  functions_ d !! "recv_func"%string = Some func ->
  buffers_ d !! "recv_func"%string = Some buffer ->
  getPlaceholderByName bindings "recv_input" = Some PH ->
  symbolTable (getRuntimeBundle func) !! "recv_input"%string = Some info ->
  getRemotePeerToPeerAddress d channelId bindings
  = {| peer_outs := [];
       peer_value := PeerAddr (to_int64 (getWeightsBuffer buffer + offset info)) |}
  /\ (0 <= getWeightsBuffer buffer + offset info < 2 ^ 63 ->
      getRemotePeerToPeerAddress d channelId bindings
      = {| peer_outs := [];
           peer_value := PeerAddr (getWeightsBuffer buffer + offset info) |}).
Proof.
  intros Hf Hb Hph Hsym.
  assert (Hres : getRemotePeerToPeerAddress d channelId bindings
                 = {| peer_outs := [];
                      peer_value :=
                        PeerAddr (to_int64 (getWeightsBuffer buffer + offset info)) |}).
  { unfold getRemotePeerToPeerAddress. rewrite Hf, Hb, Hph.
    rewrite (getPlaceholderByName_name _ _ _ Hph), Hsym. reflexivity. }
  split; [exact Hres |]. intros Hsmall. rewrite Hres. by rewrite to_int64_small.
Qed.

(** X21: whenever the resolver returns an address, [recv_func] is registered
    with a buffer, [recv_input] is in its symbol table, the address is the
    weights region base plus that symbol's offset, and nothing was printed. *)
Theorem getRemotePeerToPeerAddress_address_inv d channelId bindings res :
  peer_value (getRemotePeerToPeerAddress d channelId bindings) = PeerAddr res ->
  exists func buffer info,
    functions_ d !! "recv_func"%string = Some func /\
    buffers_ d !! "recv_func"%string = Some buffer /\
    symbolTable (getRuntimeBundle func) !! "recv_input"%string = Some info /\
    res = to_int64 (getWeightsBuffer buffer + offset info) /\
    peer_outs (getRemotePeerToPeerAddress d channelId bindings) = [].
Proof.
  unfold getRemotePeerToPeerAddress.
  destruct (functions_ d !! "recv_func"%string) as [func |]; [| discriminate].
  destruct (buffers_ d !! "recv_func"%string) as [buffer |]; [| discriminate].
  destruct (getPlaceholderByName bindings "recv_input") as [PH |] eqn:Hph;
    [| discriminate].
  rewrite (getPlaceholderByName_name _ _ _ Hph).
  destruct (symbolTable (getRuntimeBundle func) !! "recv_input"%string)
    as [info |] eqn:Hsym; [| discriminate].
  simpl. intros [= <-]. exists func, buffer, info. auto.
Qed.

(** ** The memory accessors *)

(** X22: [getAvailableMemory] is the capacity minus the counter while the
    counter is within the capacity; once the counter exceeds the capacity the
    unsigned difference wraps and the accessor reports 2^64 minus the
    excess. *)
Theorem getAvailableMemory_cases d :
  is_u64 (usedMemoryBytes_ d) -> is_u64 (maxMemoryBytes_ d) ->
  (usedMemoryBytes_ d <= maxMemoryBytes_ d ->
   getAvailableMemory d = maxMemoryBytes_ d - usedMemoryBytes_ d) /\
  (maxMemoryBytes_ d < usedMemoryBytes_ d ->
   getAvailableMemory d
   = u64_modulus - (usedMemoryBytes_ d - maxMemoryBytes_ d)).
Proof.
  unfold is_u64, getAvailableMemory, u64. intros Hu Hm. split; intros Hle.
  - apply Z.mod_small. lia.
  - symmetry. apply (Z.mod_unique_pos _ _ (-1)); lia.
Qed.

(** X23: while the counter is within the capacity and the sum of counter and
    estimate fits in 64 bits, [isMemoryAvailable] agrees with
    [getAvailableMemory]: an estimate is accepted exactly when it is at most
    the available memory. *)
Theorem isMemoryAvailable_iff_available d estimate :
  is_u64 (maxMemoryBytes_ d) ->
  0 <= usedMemoryBytes_ d <= maxMemoryBytes_ d ->
  is_u64 (usedMemoryBytes_ d + estimate) ->
  (isMemoryAvailable d estimate = true <-> estimate <= getAvailableMemory d).
Proof.
  unfold is_u64. intros Hm Hu Hsum.
  unfold isMemoryAvailable, getAvailableMemory.
  rewrite Z.geb_leb, Z.leb_le.
  rewrite (u64_id (usedMemoryBytes_ d + estimate)) by exact Hsum.
  rewrite (u64_id (maxMemoryBytes_ d - usedMemoryBytes_ d))
    by (unfold is_u64; lia).
  lia.
Qed.

End MoreDeviceFacts.

(** ** The further properties at concrete devices *)

Lemma exampleDevice_ledgerExact maxBytes cost :
  ledgerExact (P := exampleHost true false cost) (exampleDevice maxBytes).
Proof. unfold ledgerExact. simpl. rewrite map_size_empty. reflexivity. Qed.

Lemma batchA_NoDup : NoDup (map fst [("A"%string, cpuFunction)]).
Proof. simpl. apply NoDup_singleton. Qed.

Lemma batchA_reportsSuccess :
  reportsSuccess (P := scenarioHost) "m"%string
    (addNetworkImpl (P := scenarioHost) (exampleDevice 1000) 64 "m"%string
       [("A"%string, cpuFunction)]).
Proof. vm_compute. left. reflexivity. Qed.

(** The scenario device with [A] loaded, evicted and run is reached by a
    history from the empty device. *)
Lemma scenario_history :
  deviceSteps (P := scenarioHost) (exampleDevice 1000, 64)
    (ev_device (evictNetworkImpl (P := scenarioHost) deviceWithA 448 "A"), 448).
Proof.
  eapply steps_more.
  - eapply steps_more.
    + eapply steps_more; [apply steps_none |].
      apply (step_addNetwork (P := scenarioHost) (exampleDevice 1000) 64
               "m"%string [("A"%string, cpuFunction)] batchA_NoDup).
    + apply (step_runFunction (P := scenarioHost) _ _ 7 "A"%string exampleContext
               deviceWithA
               [(7, success,
                 setDeviceBindings exampleContext
                   {| bindingsActivations := 64; bindingsWeights := 192 |})]
               [("A"%string, CallGetActivationsBuffer);
                ("A"%string, CallGetWeightsBuffer)]).
      vm_compute. reflexivity.
  - apply (step_evictNetwork (P := scenarioHost) deviceWithA 448 "A"%string).
Qed.

Lemma deviceSteps_ledgerExact_witness :
  ledgerExact (P := scenarioHost) (exampleDevice 1000) /\
  ledgerExact (P := scenarioHost)
    (ev_device (evictNetworkImpl (P := scenarioHost) deviceWithA 448 "A")).
Proof.
  split; [apply exampleDevice_ledgerExact |].
  exact (deviceSteps_ledgerExact (P := scenarioHost) (exampleDevice 1000, 64) _
           (exampleDevice_ledgerExact 1000 400) scenario_history).
Defined.

Lemma deviceSteps_buffersConsistent_witness :
  buffersConsistent (exampleDevice 1000) /\
  buffersConsistent
    (ev_device (evictNetworkImpl (P := scenarioHost) deviceWithA 448 "A")).
Proof.
  split; [apply CPUDeviceManager_new_consistent |].
  exact (deviceSteps_buffersConsistent (P := scenarioHost) (exampleDevice 1000, 64) _
           (CPUDeviceManager_new_consistent _) scenario_history).
Defined.

Lemma deviceSteps_maxMemoryBytes_witness :
  maxMemoryBytes_
    (ev_device (evictNetworkImpl (P := scenarioHost) deviceWithA 448 "A"))
  = maxMemoryBytes_ (exampleDevice 1000).
Proof.
  exact (deviceSteps_maxMemoryBytes (P := scenarioHost) (exampleDevice 1000, 64) _
           scenario_history).
Defined.

Lemma runFunctionImpl_after_history_witness :
  exists e context' bufferCalls,
    runFunctionImpl
      (ev_device (evictNetworkImpl (P := scenarioHost) deviceWithA 448 "A"))
      9 "A" exampleContext
    = RunReturned
        (ev_device (evictNetworkImpl (P := scenarioHost) deviceWithA 448 "A"))
        [(9, e, context')] bufferCalls.
Proof.
  exact (runFunctionImpl_after_history (P := scenarioHost) (exampleDevice 1000, 64) _
           9 "A"%string exampleContext
           (CPUDeviceManager_new_consistent _) scenario_history).
Defined.

Lemma steadyHost_never_null ndebug cost :
  forall heap size alignment,
    (alignedAlloc (Platform := steadyHost ndebug cost) heap size alignment).1 <> 0.
Proof. intros heap size alignment. simpl. lia. Qed.

Lemma addNetworkImpl_once_without_allocation_failure_witness :
  let r := addNetworkImpl (P := steadyHost false 400) (exampleDevice 1000)
             1%positive "m"%string
             [("A"%string, cpuFunction); ("B"%string, cpuFunction)] in
  ld_assert_failed r = false /\ exists e, ld_ready r = [("m"%string, e)].
Proof.
  assert (Hassert :
    ld_assert_failed
      (addNetworkImpl (P := steadyHost false 400) (exampleDevice 1000)
         1%positive "m"%string
         [("A"%string, cpuFunction); ("B"%string, cpuFunction)]) = false).
  { vm_compute. reflexivity. }
  split; [exact Hassert |].
  exact (addNetworkImpl_once_without_allocation_failure (P := steadyHost false 400)
           (exampleDevice 1000) 1%positive "m"%string
           [("A"%string, cpuFunction); ("B"%string, cpuFunction)]
           (steadyHost_never_null false 400) Hassert).
Defined.

Lemma addNetworkImpl_wrong_backend_witness :
  exists pre n f post,
    [("a"%string, cpuFunction); ("b"%string, interpreterFunction)]
    = pre ++ (n, f) :: post /\
    Forall (fun e : string * CompiledFunction =>
              getCompileBackendName e.2 = "CPU"%string) pre /\
    getCompileBackendName f <> "CPU"%string /\
    addNetworkImpl (P := scenarioHost) (exampleDevice 1000) 64 "m"%string
      [("a"%string, cpuFunction); ("b"%string, interpreterFunction)]
    = @Build_LoadResult scenarioHost (exampleDevice 1000) 64
        [("m"%string, WrongBackend n)] false.
Proof.
  apply (addNetworkImpl_wrong_backend (P := scenarioHost) (exampleDevice 1000) 64
           "m"%string
           [("a"%string, cpuFunction); ("b"%string, interpreterFunction)]).
  - intros name func _. apply lookup_empty.
  - exists "b"%string, interpreterFunction. split; [right; left; reflexivity |].
    vm_compute. discriminate.
Defined.

Lemma addNetworkImpl_registers_batch_witness :
  let r := addNetworkImpl (P := scenarioHost) (exampleDevice 1000) 64 "m"%string
             [("A"%string, cpuFunction)] in
  is_u64 (usedMemoryBytes_ (exampleDevice 1000)) /\
  usedMemoryBytes_ (ld_device r)
  = u64 (usedMemoryBytes_ (exampleDevice 1000) + Z.of_nat 1 * 400).
Proof.
  assert (Hu : is_u64 (usedMemoryBytes_ (exampleDevice 1000))).
  { unfold is_u64, u64_modulus. simpl. lia. }
  split; [exact Hu |].
  exact (proj1 (proj2 (addNetworkImpl_registers_batch (P := scenarioHost)
           (exampleDevice 1000) 64 "m"%string [("A"%string, cpuFunction)]
           Hu batchA_reportsSuccess))).
Defined.

Lemma addNetworkImpl_other_names_witness :
  let r := addNetworkImpl (P := scenarioHost) deviceWithA 448 "m"%string
             [("B"%string, cpuFunction)] in
  ("A"%string ∉ map fst [("B"%string, cpuFunction)]) /\
  functions_ (ld_device r) !! "A"%string = functions_ deviceWithA !! "A"%string.
Proof.
  assert (Hnot : "A"%string ∉ map fst [("B"%string, cpuFunction)]).
  { simpl. intros Hin. apply list_elem_of_singleton in Hin. discriminate. }
  split; [exact Hnot |].
  exact (proj1 (addNetworkImpl_other_names (P := scenarioHost) deviceWithA 448
           "m"%string [("B"%string, cpuFunction)] "A"%string Hnot)).
Defined.

Lemma addNetworkImpl_stores_function_witness :
  exists func' buffer,
    functions_ deviceWithA !! "A"%string = Some func' /\
    execute func' = execute cpuFunction /\
    getCompileBackendName func' = "CPU"%string /\
    (constants (getRuntimeBundle cpuFunction) <> 0 -> func' = cpuFunction) /\
    buffers_ deviceWithA !! "A"%string = Some buffer /\
    getActivationsSize buffer = activationsSize (getRuntimeBundle func') /\
    getWeightsSize buffer = mutableWeightSize (getRuntimeBundle func').
Proof.
  exact (addNetworkImpl_stores_function (P := scenarioHost) (exampleDevice 1000) 64
           "m"%string [("A"%string, cpuFunction)] "A"%string cpuFunction
           (CPUDeviceManager_new_consistent _) batchA_NoDup batchA_reportsSuccess
           (or_introl eq_refl)).
Defined.

Lemma addNetworkImpl_twice_duplicate_witness :
  addNetworkImpl (P := scenarioHost) deviceWithA 448 "n"%string
    [("A"%string, interpreterFunction)]
  = @Build_LoadResult scenarioHost deviceWithA 448
      [("n"%string, DuplicateFunction "A")] false.
Proof.
  exact (addNetworkImpl_twice_duplicate (P := scenarioHost) (exampleDevice 1000) 64
           "m"%string [("A"%string, cpuFunction)] "A"%string cpuFunction
           "n"%string interpreterFunction batchA_reportsSuccess
           (or_introl eq_refl)).
Defined.

Lemma evictNetworkImpl_removes_witness :
  is_Some (functions_ deviceWithA !! "A"%string) /\
  let r := evictNetworkImpl (P := scenarioHost) deviceWithA 448 "A" in
  ev_evicted r = [("A"%string, success)] /\
  functions_ (ev_device r) !! "A"%string = None.
Proof.
  destruct (functions_ deviceWithA !! "A"%string) as [func |] eqn:Hf;
    [| vm_compute in Hf; discriminate].
  split; [eauto |].
  pose proof (evictNetworkImpl_removes (P := scenarioHost) deviceWithA 448
                "A"%string func Hf) as H.
  cbv zeta in H. cbv zeta. split; [exact (proj1 H) | exact (proj1 (proj2 H))].
Defined.

Lemma evictNetworkImpl_makes_room_witness :
  is_u64 (usedMemoryBytes_ deviceWithA) /\
  usedMemoryBytes_ deviceWithA <= maxMemoryBytes_ deviceWithA /\
  isMemoryAvailable
    (ev_device (evictNetworkImpl (P := scenarioHost) deviceWithA 448 "A"))
    400 = true.
Proof.
  assert (Hu : is_u64 (usedMemoryBytes_ deviceWithA)).
  { vm_compute. split; [discriminate | reflexivity]. }
  assert (Hle : usedMemoryBytes_ deviceWithA <= maxMemoryBytes_ deviceWithA).
  { vm_compute. discriminate. }
  assert (Hreg : is_Some (functions_ deviceWithA !! "A"%string)).
  { vm_compute. eexists; reflexivity. }
  split; [exact Hu |]. split; [exact Hle |].
  exact (evictNetworkImpl_makes_room (P := scenarioHost) deviceWithA 448
           "A"%string Hu Hle Hreg).
Defined.

Lemma addNetworkImpl_then_run_witness :
  exists buffer,
    buffers_ deviceWithA !! "A"%string = Some buffer /\
    let context1 :=
      setDeviceBindings exampleContext
        {| bindingsActivations := getActivationsBuffer buffer;
           bindingsWeights := getWeightsBuffer buffer |} in
    runFunctionImpl deviceWithA 7 "A" exampleContext
    = RunReturned deviceWithA
        [(7, (execute cpuFunction context1).1, (execute cpuFunction context1).2)]
        [("A"%string, CallGetActivationsBuffer);
         ("A"%string, CallGetWeightsBuffer)].
Proof.
  exact (addNetworkImpl_then_run (P := scenarioHost) (exampleDevice 1000) 64
           "m"%string [("A"%string, cpuFunction)] "A"%string cpuFunction
           7 exampleContext batchA_NoDup batchA_reportsSuccess (or_introl eq_refl)).
Defined.

Lemma load_evict_frees_regions_witness :
  exists bundle heap1 a heap2 w heap3,
    bundleForLoad (P := scenarioHost) 64 "m"%string cpuFunction = (bundle, heap1) /\
    alignedAlloc (Platform := scenarioHost) heap1 (activationsSize bundle)
      (TensorAlignment (Platform := scenarioHost)) = (a, heap2) /\
    alignedAlloc (Platform := scenarioHost) heap2 (mutableWeightSize bundle)
      (TensorAlignment (Platform := scenarioHost)) = (w, heap3) /\
    ld_heap (addNetworkImpl (P := scenarioHost) (exampleDevice 1000) 64
               "m"%string [("A"%string, cpuFunction)]) = heap3 /\
    ev_heap (evictNetworkImpl (P := scenarioHost) deviceWithA
               (ld_heap (addNetworkImpl (P := scenarioHost) (exampleDevice 1000) 64
                           "m"%string [("A"%string, cpuFunction)])) "A")
    = alignedFree (Platform := scenarioHost)
        (alignedFree (Platform := scenarioHost) heap3 a) w.
Proof.
  exact (load_evict_frees_regions (P := scenarioHost) (exampleDevice 1000) 64
           "m"%string "A"%string cpuFunction
           (CPUDeviceManager_new_consistent _) batchA_reportsSuccess).
Defined.

Lemma getRemotePeerToPeerAddress_address_witness :
  getRemotePeerToPeerAddress
    (deviceWithRecv {[ "recv_input"%string := {| offset := 16 |} ]}) 3
    [ {| getName := "other" |}; {| getName := "recv_input" |} ]
  = {| peer_outs := []; peer_value := PeerAddr (192 + 16) |}.
Proof.
  pose (d := deviceWithRecv {[ "recv_input"%string := {| offset := 16 |} ]}).
  destruct (functions_ d !! "recv_func"%string) as [func |] eqn:Hf;
    [| vm_compute in Hf; discriminate].
  assert (Hsym : symbolTable (getRuntimeBundle func) !! "recv_input"%string
                 = Some {| offset := 16 |}).
  { vm_compute in Hf. injection Hf as <-. vm_compute. reflexivity. }
  assert (Hb : buffers_ d !! "recv_func"%string
               = Some (CPUBuffer_new 64 128 192 256)).
  { vm_compute. reflexivity. }
  assert (Hph : getPlaceholderByName
                  [ {| getName := "other" |}; {| getName := "recv_input" |} ]
                  "recv_input" = Some {| getName := "recv_input" |}).
  { vm_compute. reflexivity. }
  apply (proj2 (getRemotePeerToPeerAddress_address d 3 _ func _ _ _
                  Hf Hb Hph Hsym)).
  simpl. lia.
Defined.

Lemma getRemotePeerToPeerAddress_address_inv_witness :
  exists func buffer info,
    functions_ (deviceWithRecv {[ "recv_input"%string := {| offset := 16 |} ]})
      !! "recv_func"%string = Some func /\
    buffers_ (deviceWithRecv {[ "recv_input"%string := {| offset := 16 |} ]})
      !! "recv_func"%string = Some buffer /\
    symbolTable (getRuntimeBundle func) !! "recv_input"%string = Some info /\
    208 = to_int64 (getWeightsBuffer buffer + offset info) /\
    peer_outs (getRemotePeerToPeerAddress
                 (deviceWithRecv {[ "recv_input"%string := {| offset := 16 |} ]}) 0
                 [ {| getName := "recv_input" |} ]) = [].
Proof.
  apply (getRemotePeerToPeerAddress_address_inv
           (deviceWithRecv {[ "recv_input"%string := {| offset := 16 |} ]}) 0
           [ {| getName := "recv_input" |} ] 208).
  vm_compute. reflexivity.
Defined.

Lemma getAvailableMemory_cases_witness :
  is_u64 (usedMemoryBytes_ deviceWithA) /\ is_u64 (maxMemoryBytes_ deviceWithA) /\
  usedMemoryBytes_ deviceWithA <= maxMemoryBytes_ deviceWithA /\
  getAvailableMemory deviceWithA
  = maxMemoryBytes_ deviceWithA - usedMemoryBytes_ deviceWithA.
Proof.
  assert (Hu : is_u64 (usedMemoryBytes_ deviceWithA)).
  { vm_compute. split; [discriminate | reflexivity]. }
  assert (Hm : is_u64 (maxMemoryBytes_ deviceWithA)).
  { vm_compute. split; [discriminate | reflexivity]. }
  assert (Hle : usedMemoryBytes_ deviceWithA <= maxMemoryBytes_ deviceWithA).
  { vm_compute. discriminate. }
  split; [exact Hu |]. split; [exact Hm |]. split; [exact Hle |].
  exact (proj1 (getAvailableMemory_cases deviceWithA Hu Hm) Hle).
Defined.

Lemma isMemoryAvailable_iff_available_witness :
  is_u64 (maxMemoryBytes_ deviceWithA) /\
  0 <= usedMemoryBytes_ deviceWithA <= maxMemoryBytes_ deviceWithA /\
  is_u64 (usedMemoryBytes_ deviceWithA + 700) /\
  (isMemoryAvailable deviceWithA 700 = true
   <-> 700 <= getAvailableMemory deviceWithA).
Proof.
  assert (Hm : is_u64 (maxMemoryBytes_ deviceWithA)).
  { vm_compute. split; [discriminate | reflexivity]. }
  assert (Hu : 0 <= usedMemoryBytes_ deviceWithA <= maxMemoryBytes_ deviceWithA).
  { vm_compute. split; discriminate. }
  assert (Hs : is_u64 (usedMemoryBytes_ deviceWithA + 700)).
  { vm_compute. split; [discriminate | reflexivity]. }
  split; [exact Hm |]. split; [exact Hu |]. split; [exact Hs |].
  exact (isMemoryAvailable_iff_available deviceWithA 700 Hm Hu Hs).
Defined.

Lemma addNetworkImpl_reports_success_iff_witness :
  is_u64 (usedMemoryBytes_ deviceWithA) /\
  reportsSuccess (P := exampleHost false false 400) "m"%string
    (addNetworkImpl (P := exampleHost false false 400) deviceWithA 448 "m"%string
       [("B"%string, cpuFunction)]).
Proof.
  assert (Hu : is_u64 (usedMemoryBytes_ deviceWithA)).
  { vm_compute. split; [discriminate | reflexivity]. }
  split; [exact Hu |].
  apply (proj2 (addNetworkImpl_reports_success_iff (P := exampleHost false false 400)
                  deviceWithA 448 "m"%string [("B"%string, cpuFunction)] Hu)).
  split; [| split].
  - intros name func [Heq | []]. inversion Heq; subst.
    split; vm_compute; reflexivity.
  - vm_compute. discriminate.
  - right. vm_compute. discriminate.
Defined.

(** With [A] registered, the batch [0], [1], [2], [A] in which [1] and [2] are
    not compiled for CPU is refused with the failure of [1]. *)
Example addNetworkImpl_first_wrong_backend :
  ld_ready (addNetworkImpl (P := scenarioHost) deviceWithA 448 "m"%string
              [("0"%string, cpuFunction); ("1"%string, interpreterFunction);
               ("2"%string, interpreterFunction); ("A"%string, cpuFunction)])
  = [("m"%string, WrongBackend "1")].
Proof. vm_compute. reflexivity. Qed.

(** The eviction message stops at a NUL inside the name. *)
Example EvictNotFound_embedded_nul :
  EvictNotFound ("a" +:+ String Ascii.zero "b")
  = MAKE_ERR RUNTIME_NET_NOT_FOUND "Could not find function with name a to evict".
Proof. reflexivity. Qed.
